(** * A shallow embedding of the demo API service ([main.py])

    The service exposes four read-only routes and a 404 fallback.  Every
    handler reads the host (wall clock, interpreter and platform strings)
    and the process state (the module-level [start_time], the process
    environment); none writes anything.  Handlers are embedded in a small
    state-and-exception monad over the process state, so that "does not
    write" is a statement about the embedding and not a typing artefact.
    Around them stands what the [FastAPI(...)] object adds for a [GET]
    request: its own routes, the router's trailing-slash redirect, the
    exception handlers and the outermost error middleware.

    Python floats are embedded by the rational number they denote, and the
    rounding of every inexact operation is written out ([RN], binary64
    round-to-nearest-even). *)

From Stdlib Require Import ZArith QArith Qround Qabs Qpower Qfield Lia Lqa List Sorted.
From stdpp Require Import gmap strings pretty.

Local Open Scope Z_scope.
Local Open Scope string_scope.

(** ** Binary64 rounding *)

(** Nearest integer, ties to the even one: the rounding of IEEE 754
    arithmetic and of C's [printf("%.0f")], which Python's [format] uses. *)
Definition rne (q : Q) : Z :=
  let f := Qfloor q in
  match Qcompare (q - inject_Z f) (1 # 2) with
  | Lt => f
  | Gt => f + 1
  | Eq => if Z.even f then f else f + 1
  end.

(** For [q > 0], the exponent [e] of the unit in the last place of [q]:
    [2^(e+52) <= q < 2^(e+53)].  The logarithms bracket it within one. *)
Definition binade (q : Q) : Z :=
  let e0 := Z.log2 (Qnum q) - Z.log2 (Zpos (Qden q)) - 53 in
  if Qle_bool (2 ^ (e0 + 53)) q then e0 + 1 else e0.

(** Round to the nearest binary64 value, ties to even: a 53-bit integer
    significand times a power of two.  The exponent range is left
    unbounded: every value the handlers form from two [datetime]s is zero
    or has a magnitude between 2^-80 and 2^49, far from overflow and from
    the subnormal numbers. *)
Definition RN (q : Q) : Q :=
  if Qeq_bool q 0 then 0%Q else
  let e := binade (Qabs q) in (inject_Z (rne (q / 2 ^ e)) * 2 ^ e)%Q.

(** The values binary64 holds exactly. *)
Definition representable (x : Q) : Prop :=
  exists m e : Z, Z.abs m < 2 ^ 53 /\ (x == inject_Z m * 2 ^ e)%Q.

(** ** Python's float operations *)

(** The exact floored remainder [x - w * floor (x / w)]. *)
Definition Qrem (x w : Q) : Q := (x - w * inject_Z (Qfloor (x / w)))%Q.

(** [int / int]: the correctly rounded quotient. *)
Definition int_truediv (a b : Z) : Q := RN (inject_Z a / inject_Z b).

(** [x // w] on floats, for a divisor [w > 0]: the floor of the exact
    quotient, as a float (the floor itself below 2^53, which no quotient
    of a [datetime] difference reaches). *)
Definition float_floordiv (x w : Q) : Q := RN (inject_Z (Qfloor (x / w))).

(** [x % w] on floats, for a divisor [w > 0]: C's [fmod] is exact, and
    the [+ w] that moves a negative remainder into [0, w] rounds. *)
Definition float_mod (x w : Q) : Q := RN (Qrem x w).

(** [format(x, ".0f")]: the nearest integer, ties to even, in decimal; a
    negative value that rounds to zero keeps its sign. *)
Definition format_0f (x : Q) : string :=
  let k := rne x in
  if negb (Qle_bool 0 x) && Z.eqb k 0 then "-0" else pretty k.

(** ** [datetime] *)

(** [datetime.now()] returns a naive local date-time.  It is carried as its
    count of microseconds since 0001-01-01T00:00:00, which is what
    [datetime.__sub__] computes from the fields before it builds the
    [timedelta]. *)
Record datetime := { micros : Z }.

(** A [timedelta] is an exact number of microseconds. *)
Record timedelta := { total_microseconds : Z }.

Definition datetime_sub (a b : datetime) : timedelta :=
  {| total_microseconds := micros a - micros b |}.

(** [timedelta.total_seconds()]: microseconds [/ 10**6], a float. *)
Definition total_seconds (d : timedelta) : Q :=
  int_truediv (total_microseconds d) 1000000.

(** Decimal with at least [width] digits, zero padded ([%0Nd]). *)
Fixpoint zeros (n : nat) : string :=
  match n with
  | O => ""
  | S n' => "0" ++ zeros n'
  end.

Definition zero_pad (width : nat) (s : string) : string :=
  zeros (width - String.length s) ++ s.

Definition fmt_d (width : nat) (n : Z) : string := zero_pad width (pretty n).

(** Year, month and day of the day number [days] counted from
    0001-01-01 (day 0), in the proleptic Gregorian calendar. *)
Definition civil_from_days (days : Z) : Z * Z * Z :=
  let z := days + 306 in
  let era := z / 146097 in
  let doe := z - era * 146097 in
  let yoe := (doe - doe / 1460 + doe / 36524 - doe / 146096) / 365 in
  let doy := doe - (365 * yoe + yoe / 4 - yoe / 100) in
  let mp := (5 * doy + 2) / 153 in
  let d := doy - (153 * mp + 2) / 5 + 1 in
  let m := if Z.ltb mp 10 then mp + 3 else mp - 9 in
  let y := yoe + era * 400 + (if Z.leb m 2 then 1 else 0) in
  (y, m, d).

(** [datetime.isoformat()]: the fraction is printed only when the
    microsecond field is not zero. *)
Definition isoformat (t : datetime) : string :=
  let us := micros t mod 1000000 in
  let secs := micros t / 1000000 in
  let '(y, m, d) := civil_from_days (secs / 86400) in
  let sod := secs mod 86400 in
  fmt_d 4 y ++ "-" ++ fmt_d 2 m ++ "-" ++ fmt_d 2 d ++ "T" ++
  fmt_d 2 (sod / 3600) ++ ":" ++ fmt_d 2 (sod mod 3600 / 60) ++ ":" ++
  fmt_d 2 (sod mod 60) ++
  (if Z.eqb us 0 then "" else "." ++ fmt_d 6 us).

(** ** Response models (the pydantic classes of [main.py]) *)

Module HealthResponse.
Record t := {
  status : string;
  timestamp : string;
  uptime : Q;
  environment : string;
  python_version : string
}.
End HealthResponse.

Module StatusResponse.
Record t := {
  service : string;
  status : string;
  timestamp : string;
  version : string;
  python_version : string;
  platform : string
}.
End StatusResponse.

Module AppInfoResponse.
Record t := {
  message : string;
  version : string;
  features : list string;
  endpoints : list (string * string);
  tech_stack : list string
}.
End AppInfoResponse.

(** The dictionary [get_metrics] returns, with its two nested
    dictionaries. *)
Module MetricsResponse.
Record memory_info_t := { available : string; used : string }.
Record python_info_t := {
  version : string;
  platform : string;
  architecture : string
}.
Record t := {
  uptime_seconds : Q;
  uptime_human : string;
  memory_info : memory_info_t;
  requests_total : string;
  python_info : python_info_t
}.
End MetricsResponse.

(** The [detail] of an [HTTPException]: the router's own 404 carries a
    phrase, the one [not_found_handler] raises carries a dictionary. *)
Inductive Detail :=
  | DetailPhrase (phrase : string)
  | DetailNotFound (error : string) (available_endpoints : list string)
      (documentation : string).

Record HTTPException := { status_code : Z; detail : Detail }.

(** What a request is answered with: the value a handler returns, one of
    the pages and documents the framework generates, the router's redirect
    to another path, or a plain text. *)
Inductive Body :=
  | AppInfoBody (r : AppInfoResponse.t)
  | HealthBody (r : HealthResponse.t)
  | StatusBody (r : StatusResponse.t)
  | MetricsBody (r : MetricsResponse.t)
  | SwaggerUIPage
  | ReDocPage
  | OpenAPIDocument
  | OAuth2RedirectPage
  | RedirectTo (location : string)
  | PlainText (text : string).

Record Response := { http_status : Z; body : Body }.

(** ** Process state and host *)

(** What lives as long as the process and a handler could write: the
    module-level [start_time] and the process environment [os.environ]. *)
Record Process := {
  start_time : datetime;
  environ : gmap string string
}.

(** [sys.version_info]. *)
Record VersionInfo := { major : Z; minor : Z; micro : Z }.

(** What one request reads from outside the process: the wall clock at the
    moment of the handler's single [datetime.now()], and the interpreter
    and platform descriptions.  The wall clock is an input like any other:
    nothing here makes it run forwards, and a statement that needs it to
    says so. *)
Record Host := {
  now : datetime;
  sys_version : string;
  version_info : VersionInfo;
  platform_platform : string;
  platform_architecture : string * string
}.

(** ** Handlers: state passing, with [raise] *)

Definition M (A : Type) : Type := Process -> (A + HTTPException) * Process.

Definition ret {A} (a : A) : M A := fun p => (inl a, p).

Definition raise {A} (e : HTTPException) : M A := fun p => (inr e, p).

Definition bind {A B} (m : M A) (k : A -> M B) : M B :=
  fun p =>
    match m p with
    | (inl a, p') => k a p'
    | (inr e, p') => (inr e, p')
    end.

Notation "x <- m ;; k" := (bind m (fun x => k))
  (at level 100, m at next level, right associativity).

(** Reading the global [start_time]. *)
Definition read_start_time : M datetime := fun p => (inl (start_time p), p).

(** [os.getenv(key, default)]. *)
Definition getenv (key dflt : string) : M string :=
  fun p => (inl (default dflt (environ p !! key)), p).

(** [start_time = datetime.now()], run once when the module is loaded. *)
Definition init (h : Host) (env : gmap string string) : Process :=
  {| start_time := now h; environ := env |}.

Definition root : M AppInfoResponse.t :=
  ret {|
    AppInfoResponse.message := "🚀 Professional Python CI/CD Demo API";
    AppInfoResponse.version := "1.0.0";
    AppInfoResponse.features := [
      "✅ Automated Testing with Pytest";
      "🐳 Docker Containerization";
      "🔍 Code Quality with Black & Flake8";
      "🛡️ Security Scanning with Bandit";
      "📊 Health Monitoring";
      "📖 Auto-generated API Documentation";
      "🚀 FastAPI Async Performance" ];
    AppInfoResponse.endpoints := [
      ("docs", "/docs");
      ("health", "/health");
      ("status", "/api/status");
      ("metrics", "/api/metrics") ];
    AppInfoResponse.tech_stack := [
      "Python 3.11+"; "FastAPI"; "Uvicorn"; "Pydantic"; "Docker";
      "GitHub Actions" ]
  |}.

Definition health_check (h : Host) : M HealthResponse.t :=
  let current_time := now h in
  st <- read_start_time ;;
  let uptime := total_seconds (datetime_sub current_time st) in
  env <- getenv "ENVIRONMENT" "development" ;;
  ret {|
    HealthResponse.status := "healthy";
    HealthResponse.timestamp := isoformat current_time;
    HealthResponse.uptime := uptime;
    HealthResponse.environment := env;
    HealthResponse.python_version := sys_version h
  |}.

Definition get_status (h : Host) : M StatusResponse.t :=
  ret {|
    StatusResponse.service := "python-demo-app";
    StatusResponse.status := "running";
    StatusResponse.timestamp := isoformat (now h);
    StatusResponse.version := "1.0.0";
    StatusResponse.python_version :=
      pretty (major (version_info h)) ++ "." ++
      pretty (minor (version_info h)) ++ "." ++
      pretty (micro (version_info h));
    StatusResponse.platform := platform_platform h
  |}.

(** The three replacement fields of the f-string of [get_metrics], and
    the f-string. *)
Definition hours_field (uptime_seconds : Q) : string :=
  format_0f (float_floordiv uptime_seconds 3600).

Definition minutes_field (uptime_seconds : Q) : string :=
  format_0f (float_floordiv (float_mod uptime_seconds 3600) 60).

Definition seconds_field (uptime_seconds : Q) : string :=
  format_0f (float_mod uptime_seconds 60).

Definition human (uptime_seconds : Q) : string :=
  hours_field uptime_seconds ++ "h " ++
  minutes_field uptime_seconds ++ "m " ++
  seconds_field uptime_seconds ++ "s".

Definition get_metrics (h : Host) : M MetricsResponse.t :=
  let current_time := now h in
  st <- read_start_time ;;
  let uptime_seconds := total_seconds (datetime_sub current_time st) in
  ret {|
    MetricsResponse.uptime_seconds := uptime_seconds;
    MetricsResponse.uptime_human := human uptime_seconds;
    MetricsResponse.memory_info :=
      {| MetricsResponse.available := "simulation";
         MetricsResponse.used := "simulation" |};
    MetricsResponse.requests_total := "simulation";
    MetricsResponse.python_info :=
      {| MetricsResponse.version := sys_version h;
         MetricsResponse.platform := platform_platform h;
         MetricsResponse.architecture := fst (platform_architecture h) |}
  |}.

(** The handler registered for status 404.  It does not return a response:
    it raises. *)
Definition not_found_handler (request : string) (exc : HTTPException)
  : M Response :=
  raise {|
    status_code := 404;
    detail :=
      DetailNotFound "Endpoint not found"
        ["/"; "/health"; "/api/status"; "/api/metrics"; "/docs"]
        "/docs"
  |}.

(** ** Routing *)

(** The routes of the application, in the order they are registered.  The
    [FastAPI(...)] call registers the framework's own four first: the
    OpenAPI document at its default [openapi_url], the Swagger page at
    [docs_url], the OAuth2 redirect page at its default
    [swagger_ui_oauth2_redirect_url], and the ReDoc page at [redoc_url].
    The four decorated handlers follow. *)
Inductive Endpoint :=
  | OpenAPI | Docs | OAuth2Redirect | ReDoc
  | Root | HealthCheck | GetStatus | GetMetrics.

Definition openapi_url : string := "/openapi.json".
Definition docs_url : string := "/docs".
Definition swagger_ui_oauth2_redirect_url : string := "/docs/oauth2-redirect".
Definition redoc_url : string := "/redoc".

Definition routes : list (string * Endpoint) :=
  [ (openapi_url, OpenAPI); (docs_url, Docs);
    (swagger_ui_oauth2_redirect_url, OAuth2Redirect); (redoc_url, ReDoc);
    ("/", Root); ("/health", HealthCheck);
    ("/api/status", GetStatus); ("/api/metrics", GetMetrics) ].

Definition newline : string := String (Ascii.ascii_of_nat 10) EmptyString.

(** A route path without parameters is compiled to the regular expression
    [^path$], matched against the decoded request path; Python's [$]
    matches at the end and also before a newline that ends the string. *)
Definition route_matches (route_path path : string) : bool :=
  String.eqb route_path path || String.eqb (route_path ++ newline) path.

Fixpoint lookup_route (table : list (string * Endpoint)) (path : string)
  : option Endpoint :=
  match table with
  | [] => None
  | (p, e) :: rest =>
      if route_matches p path then Some e else lookup_route rest path
  end.

Definition slash : Ascii.ascii := Ascii.ascii_of_nat 47.

(** [path.endswith("/")] and [path.rstrip("/")]. *)
Fixpoint ends_with_slash (s : string) : bool :=
  match s with
  | EmptyString => false
  | String c EmptyString => Ascii.eqb c slash
  | String _ rest => ends_with_slash rest
  end.

Fixpoint rstrip_slash (s : string) : string :=
  match s with
  | EmptyString => EmptyString
  | String c rest =>
      match rstrip_slash rest with
      | EmptyString => if Ascii.eqb c slash then EmptyString else String c EmptyString
      | r => String c r
      end
  end.

(** The path the router tries when no route matches: without its trailing
    slashes, or with one added. *)
Definition redirect_path (path : string) : string :=
  if ends_with_slash path then rstrip_slash path else path ++ "/".

(** A handler's return value becomes a 200 response. *)
Definition respond {A} (wrap : A -> Body) (m : M A) : M Response :=
  r <- m ;; ret {| http_status := 200; body := wrap r |}.

Definition call (e : Endpoint) (h : Host) : M Response :=
  match e with
  | OpenAPI => ret {| http_status := 200; body := OpenAPIDocument |}
  | Docs => ret {| http_status := 200; body := SwaggerUIPage |}
  | OAuth2Redirect => ret {| http_status := 200; body := OAuth2RedirectPage |}
  | ReDoc => ret {| http_status := 200; body := ReDocPage |}
  | Root => respond AppInfoBody root
  | HealthCheck => respond HealthBody (health_check h)
  | GetStatus => respond StatusBody (get_status h)
  | GetMetrics => respond MetricsBody (get_metrics h)
  end.

(** The router and the exception handlers, for a [GET] request for
    [path].  The first matching route answers.  When none matches and the
    path with its trailing slash toggled matches one, the router answers
    with a redirect to that path (status 307).  Otherwise the router raises
    its own [HTTPException(404)], for which [not_found_handler] is
    registered; what that handler raises is not handled again and leaves
    the exception handlers as an exception. *)
Definition app (path : string) (h : Host) : M Response :=
  match lookup_route routes path with
  | Some e => call e h
  | None =>
      match
        (if String.eqb path "/" then None
         else lookup_route routes (redirect_path path))
      with
      | Some _ =>
          ret {| http_status := 307; body := RedirectTo (redirect_path path) |}
      | None =>
          not_found_handler path
            {| status_code := 404; detail := DetailPhrase "Not Found" |}
      end
  end.

(** What the client receives.  The outermost middleware of the application
    catches whatever exception comes out of [app], answers with status 500
    and the plain text "Internal Server Error", and passes the exception on
    to the server, which logs it. *)
Definition server_error_middleware (inner : M Response)
  : Process -> Response * Process :=
  fun p =>
    match inner p with
    | (inl r, p') => (r, p')
    | (inr _, p') =>
        ({| http_status := 500; body := PlainText "Internal Server Error" |},
         p')
    end.

Definition http_get (path : string) (h : Host) : Process -> Response * Process :=
  server_error_middleware (app path h).

(** Serving a sequence of requests, each with the host as it is when the
    request arrives; the answers come with the process state at the end. *)
Fixpoint serve (reqs : list (string * Host)) (p : Process)
  : list (Response + HTTPException) * Process :=
  match reqs with
  | [] => ([], p)
  | (path, h) :: rest =>
      let '(r, p') := app path h p in
      let '(rs, p'') := serve rest p' in
      (r :: rs, p'')
  end.

(** The uptime an answer reports, when it is one of [/health] or
    [/api/metrics]. *)
Definition reported_uptime (r : Response + HTTPException) : option Q :=
  match r with
  | inl {| body := HealthBody b |} => Some (HealthResponse.uptime b)
  | inl {| body := MetricsBody b |} => Some (MetricsResponse.uptime_seconds b)
  | _ => None
  end.

Fixpoint reported_uptimes (answers : list (Response + HTTPException))
  : list Q :=
  match answers with
  | [] => []
  | a :: rest =>
      match reported_uptime a with
      | Some u => u :: reported_uptimes rest
      | None => reported_uptimes rest
      end
  end.

(** The clock does not run backwards from one request to a later one. *)
Definition clock_le (a b : string * Host) : Prop :=
  micros (now (snd a)) <= micros (now (snd b)).

(** A field of the human-readable uptime is the decimal of an integer
    between [lo] and [hi]. *)
Definition field_in_range (s : string) (lo hi : Z) : Prop :=
  exists k : Z, lo <= k <= hi /\ s = pretty k.

(** The human-readable uptime as the specification words it: integer
    division of the whole seconds into hours, minutes and seconds. *)
Definition human_by_integer_division (uptime_seconds : Q) : string :=
  let u := Qfloor uptime_seconds in
  pretty (u / 3600) ++ "h " ++
  pretty (u mod 3600 / 60) ++ "m " ++
  pretty (u mod 60) ++ "s".

(** ** Concrete inputs *)

(** A process started on 2024-02-29 at 12:34:56.000789, and the host as
    it is [micros_later] microseconds after that. *)
Definition example_process : Process :=
  {| start_time := {| micros := 63844806896000789 |}; environ := ∅ |}.

Definition example_host (micros_later : Z) : Host :=
  {| now := {| micros := 63844806896000789 + micros_later |};
     sys_version := "3.11.4 (main, Jun  7 2023, 00:00:00) [GCC 12.2.0]";
     version_info := {| major := 3; minor := 11; micro := 4 |};
     platform_platform := "Linux-6.1.0-x86_64-with-glibc2.36";
     platform_architecture := ("64bit", "ELF") |}.


(** ** Integer descriptions and predicates for the further properties *)

(** The nearest integer to [n / d], ties to even, for [d > 0], in
    integer arithmetic. *)
Definition round_half_even_div (n d : Z) : Z :=
  let k := n / d in
  match Z.compare (2 * (n mod d)) d with
  | Lt => k
  | Gt => k + 1
  | Eq => if Z.even k then k else k + 1
  end.

(** What [get_metrics] prints for an uptime of [us] microseconds, in
    integer arithmetic: whole hours, whole minutes, and the seconds
    together with the rounded fraction. *)
Definition human_of_micros (us : Z) : string :=
  let k := us / 1000000 in
  pretty (k / 3600) ++ "h " ++
  pretty (k mod 3600 / 60) ++ "m " ++
  pretty (k mod 60 + (round_half_even_div us 1000000 - k)) ++ "s".

(** A path that is answered with status 200 whatever the host and the
    process state are. *)
Definition served (path : string) : Prop :=
  forall (h : Host) (p : Process),
  exists r : Response, fst (app path h p) = inl r /\ http_status r = 200.

(** * Facts about the rounding operators *)

Section Rounding.
Local Open Scope Q_scope.

#[global] Instance rne_proper : Proper (Qeq ==> eq) rne.
Proof.
  intros x y H. unfold rne. rewrite (Qfloor_comp _ _ H).
  assert (E : x - inject_Z (Qfloor y) == y - inject_Z (Qfloor y)) by (rewrite H; reflexivity).
  rewrite (Qcompare_comp _ _ E _ _ (Qeq_refl (1#2))). reflexivity.
Qed.

Lemma inject_Z_succ k : inject_Z (k + 1) == inject_Z k + 1.
Proof. rewrite inject_Z_plus. reflexivity. Qed.

Lemma rne_Z k : rne (inject_Z k) = k.
Proof.
  unfold rne. rewrite Qfloor_Z.
  destruct (Qcompare_spec (inject_Z k - inject_Z k) (1#2)) as [H|H|H]; try reflexivity; exfalso; lra.
Qed.

Lemma rne_lower q : inject_Z (rne q) - (1#2) <= q.
Proof.
  unfold rne. pose proof (Qfloor_le q). pose proof (Qlt_floor q) as L. rewrite inject_Z_succ in L.
  destruct (Qcompare_spec (q - inject_Z (Qfloor q)) (1#2)) as [E|E|E].
  - destruct (Z.even _); [lra | rewrite inject_Z_succ; lra].
  - lra.
  - rewrite inject_Z_succ; lra.
Qed.

Lemma rne_upper q : q <= inject_Z (rne q) + (1#2).
Proof.
  unfold rne. pose proof (Qfloor_le q). pose proof (Qlt_floor q) as L. rewrite inject_Z_succ in L.
  destruct (Qcompare_spec (q - inject_Z (Qfloor q)) (1#2)) as [E|E|E].
  - destruct (Z.even _); [lra | rewrite inject_Z_succ; lra].
  - lra.
  - rewrite inject_Z_succ; lra.
Qed.

Lemma rne_tie_even q : q == inject_Z (Qfloor q) + (1#2) -> Z.even (rne q) = true.
Proof.
  intros T. unfold rne.
  destruct (Qcompare_spec (q - inject_Z (Qfloor q)) (1#2)) as [E|E|E]; try (exfalso; lra).
  destruct (Z.even (Qfloor q)) eqn:Ev; [exact Ev|].
  rewrite Z.even_add, Ev. reflexivity.
Qed.

Lemma inject_Z_le_iff a b : inject_Z a <= inject_Z b <-> (a <= b)%Z.
Proof. rewrite <- Zle_Qle. reflexivity. Qed.

Lemma inject_Z_lt_iff a b : inject_Z a < inject_Z b <-> (a < b)%Z.
Proof. rewrite <- Zlt_Qlt. reflexivity. Qed.

Lemma rne_floor_cases q : rne q = Qfloor q \/ rne q = (Qfloor q + 1)%Z.
Proof.
  unfold rne. destruct (Qcompare _ _); [destruct (Z.even _)|..]; auto.
Qed.

Lemma rne_mono q1 q2 : q1 <= q2 -> (rne q1 <= rne q2)%Z.
Proof.
  intros H.
  destruct (Z.le_gt_cases (rne q1) (rne q2)) as [L|G]; [exact L|exfalso].
  pose proof (rne_lower q1) as L1. pose proof (rne_upper q2) as U2.
  assert (G' : (rne q2 + 1 <= rne q1)%Z) by lia.
  apply inject_Z_le_iff in G'. rewrite inject_Z_succ in G'.
  assert (E1 : q1 == inject_Z (rne q1) - (1#2)) by lra.
  assert (E2 : q2 == inject_Z (rne q2) + (1#2)) by lra.
  assert (E3 : inject_Z (rne q1) == inject_Z (rne q2) + 1) by lra.
  (* both are ties *)
  assert (F2 : Qfloor q2 = rne q2).
  { pose proof (Qfloor_le q2). pose proof (Qlt_floor q2) as L. rewrite inject_Z_succ in L.
    destruct (rne_floor_cases q2) as [C|C]; [lia|].
    rewrite C in E2. rewrite inject_Z_succ in E2. lra. }
  assert (F1 : Qfloor q1 = (rne q1 - 1)%Z).
  { pose proof (Qfloor_le q1). pose proof (Qlt_floor q1) as L. rewrite inject_Z_succ in L.
    destruct (rne_floor_cases q1) as [C|C]; [|lia].
    rewrite C in E1. lra. }
  assert (T1 : Z.even (rne q1) = true).
  { apply rne_tie_even. rewrite F1.
    assert (P : inject_Z (rne q1 - 1) == inject_Z (rne q1) - 1)
      by (unfold Z.sub; rewrite inject_Z_plus; reflexivity).
    lra. }
  assert (T2 : Z.even (rne q2) = true).
  { apply rne_tie_even. rewrite F2. lra. }
  assert (E4 : rne q1 = (rne q2 + 1)%Z).
  { apply inject_Z_injective. rewrite inject_Z_succ. lra. }
  rewrite E4, Z.even_add, T2 in T1. discriminate.
Qed.

Lemma two_neq0 : ~ 2 == 0.
Proof. discriminate. Qed.

Lemma pw_pos e : 0 < 2 ^ e.
Proof. apply Qpower_0_lt. reflexivity. Qed.

Lemma pw_add a b : 2 ^ (a + b) == 2 ^ a * 2 ^ b.
Proof. apply Qpower_plus, two_neq0. Qed.

Lemma pw_le a b : (a <= b)%Z -> 2 ^ a <= 2 ^ b.
Proof. intros H. apply Qpower_le_compat_l; [exact H | discriminate]. Qed.

Lemma pw_Z e : (0 <= e)%Z -> 2 ^ e == inject_Z (2 ^ e).
Proof. intros H. rewrite Zpower_Qpower by exact H. reflexivity. Qed.

Lemma pw_succ e : 2 ^ (e + 1) == 2 * 2 ^ e.
Proof. rewrite pw_add. change (2 ^ 1) with 2. ring. Qed.

Lemma div_lower (c N D A B : Q) :
  0 < c -> 0 < D -> D <= 2 * B -> c * (2 * B) == A -> A <= N -> c <= N / D.
Proof. intros. apply Qle_shift_div_l; [assumption | nra]. Qed.

Lemma div_upper (c N D A B : Q) :
  0 < c -> 0 < D -> B <= D -> N < 2 * A -> c * B == 2 * A -> N / D < c.
Proof. intros. apply Qlt_shift_div_r; [assumption | nra]. Qed.

Lemma binade_spec q : 0 < q -> 2 ^ (binade q + 52) <= q /\ q < 2 ^ (binade q + 53).
Proof.
  intros Hq. destruct q as [n d].
  assert (Hn : (0 < n)%Z) by (unfold Qlt in Hq; simpl in Hq; lia).
  unfold binade. cbn [Qnum Qden].
  set (a := Z.log2 n). set (b := Z.log2 (Z.pos d)).
  destruct (Z.log2_spec n Hn) as [La Ua]. fold a in La, Ua.
  destruct (Z.log2_spec (Z.pos d) eq_refl) as [Lb Ub]. fold b in Lb, Ub.
  assert (Ha : (0 <= a)%Z) by apply Z.log2_nonneg.
  assert (Hb : (0 <= b)%Z) by apply Z.log2_nonneg.
  rewrite Z.pow_succ_r in Ua, Ub by assumption.
  apply inject_Z_le_iff in La, Lb. apply inject_Z_lt_iff in Ua, Ub.
  rewrite inject_Z_mult in Ua, Ub. rewrite <- pw_Z in La, Lb, Ua, Ub by assumption.
  change (inject_Z 2) with 2 in Ua, Ub.
  assert (HD : 0 < inject_Z (Z.pos d)) by reflexivity.
  assert (Lo : 2 ^ (a - b - 53 + 52) <= n # d).
  { rewrite (Qmake_Qdiv n d).
    apply (div_lower _ _ _ (2 ^ a) (2 ^ b)); auto using pw_pos.
    - lra.
    - rewrite <- pw_succ, <- pw_add. replace (a - b - 53 + 52 + (b + 1))%Z with a by lia. reflexivity. }
  assert (Up : n # d < 2 ^ (a - b - 53 + 54)).
  { rewrite (Qmake_Qdiv n d).
    apply (div_upper _ _ _ (2 ^ a) (2 ^ b)); auto using pw_pos.
    rewrite <- pw_succ, <- pw_add. replace (a - b - 53 + 54 + b)%Z with (a + 1)%Z by lia. reflexivity. }
  destruct (Qle_bool (2 ^ (a - b - 53 + 53)) (n # d)) eqn:C.
  - apply Qle_bool_iff in C. split.
    + replace (a - b - 53 + 1 + 52)%Z with (a - b - 53 + 53)%Z by lia. exact C.
    + replace (a - b - 53 + 1 + 53)%Z with (a - b - 53 + 54)%Z by lia. exact Up.
  - split; [exact Lo|].
    apply Qnot_le_lt. intros C'. apply Qle_bool_iff in C'. congruence.
Qed.

Lemma binade_unique q e : 2 ^ (e + 52) <= q -> q < 2 ^ (e + 53) -> binade q = e.
Proof.
  intros L U.
  assert (Hq : 0 < q) by (pose proof (pw_pos (e + 52)); lra).
  destruct (binade_spec q Hq) as [L' U'].
  destruct (Z.lt_trichotomy (binade q) e) as [C|[C|C]]; [exfalso | exact C | exfalso].
  - pose proof (pw_le (binade q + 53) (e + 52) ltac:(lia)). lra.
  - pose proof (pw_le (e + 53) (binade q + 52) ltac:(lia)). lra.
Qed.

Lemma rne_half_even q :
  q == inject_Z (rne q) + (1 # 2) \/ q == inject_Z (rne q) - (1 # 2) ->
  Z.even (rne q) = true.
Proof.
  intros T. apply rne_tie_even.
  pose proof (Qfloor_le q). pose proof (Qlt_floor q) as L. rewrite inject_Z_succ in L.
  destruct (rne_floor_cases q) as [C|C]; rewrite C in T; [|rewrite inject_Z_succ in T];
    destruct T; lra.
Qed.

Lemma rne_opp q : rne (- q) = (- rne q)%Z.
Proof.
  pose proof (rne_lower q) as L1. pose proof (rne_upper q) as U1.
  pose proof (rne_lower (- q)) as L2. pose proof (rne_upper (- q)) as U2.
  remember (rne q) as k eqn:Hk. remember (rne (- q)) as k' eqn:Hk'.
  assert (B1 : (k + k' <= 1)%Z)
    by (apply inject_Z_le_iff; rewrite inject_Z_plus; change (inject_Z 1) with 1; lra).
  assert (B2 : (-1 <= k + k')%Z)
    by (apply inject_Z_le_iff; rewrite inject_Z_plus; change (inject_Z (-1)) with (-1#1); lra).
  assert (C : (k + k' = 0 \/ k + k' = 1 \/ k + k' = -1)%Z) by lia.
  destruct C as [C|[C|C]]; [lia|exfalso|exfalso].
  - assert (E : inject_Z k + inject_Z k' == 1) by (rewrite <- inject_Z_plus, C; reflexivity).
    assert (T1 : Z.even k = true) by (rewrite Hk; apply rne_half_even; right; rewrite <- Hk; lra).
    assert (T2 : Z.even k' = true) by (rewrite Hk'; apply rne_half_even; right; rewrite <- Hk'; lra).
    replace k' with (1 - k)%Z in T2 by lia.
    rewrite Z.even_sub, T1 in T2. discriminate.
  - assert (E : inject_Z k + inject_Z k' == -1) by (rewrite <- inject_Z_plus, C; reflexivity).
    assert (T1 : Z.even k = true) by (rewrite Hk; apply rne_half_even; left; rewrite <- Hk; lra).
    assert (T2 : Z.even k' = true) by (rewrite Hk'; apply rne_half_even; left; rewrite <- Hk'; lra).
    replace k' with (-1 - k)%Z in T2 by lia.
    rewrite Z.even_sub, T1 in T2. discriminate.
Qed.

(** RN on positive arguments *)

Lemma binade_abs_pos q : 0 < q -> binade (Qabs q) = binade q.
Proof.
  intros H. destruct (binade_spec q H) as [L U].
  apply binade_unique; rewrite Qabs_pos by lra; assumption.
Qed.

Lemma Qeq_bool_false_pos q : 0 < q -> Qeq_bool q 0 = false.
Proof.
  intros H. destruct (Qeq_bool q 0) eqn:E; [|reflexivity].
  apply Qeq_bool_iff in E. lra.
Qed.

Lemma RN_pos_eq q : 0 < q -> RN q = inject_Z (rne (q / 2 ^ binade q)) * 2 ^ binade q.
Proof.
  intros H. unfold RN. rewrite Qeq_bool_false_pos by exact H.
  cbv zeta. rewrite binade_abs_pos by exact H. reflexivity.
Qed.

Lemma scaled_bounds q : 0 < q ->
  inject_Z (2 ^ 52) <= q / 2 ^ binade q /\ q / 2 ^ binade q < inject_Z (2 ^ 53).
Proof.
  intros H. destruct (binade_spec q H) as [L U].
  rewrite pw_add in L, U. pose proof (pw_pos (binade q)) as P.
  rewrite <- !pw_Z by lia.
  split.
  - apply Qle_shift_div_l; [exact P|]. lra.
  - apply Qlt_shift_div_r; [exact P|]. lra.
Qed.

Lemma significand_bounds q : 0 < q ->
  (2 ^ 52 <= rne (q / 2 ^ binade q) <= 2 ^ 53)%Z.
Proof.
  intros H. destruct (scaled_bounds q H) as [L U]. split.
  - rewrite <- (rne_Z (2 ^ 52)). apply rne_mono, L.
  - rewrite <- (rne_Z (2 ^ 53)). apply rne_mono. lra.
Qed.

Lemma RN_pos_bounds q : 0 < q ->
  2 ^ (binade q + 52) <= RN q /\ RN q <= 2 ^ (binade q + 53).
Proof.
  intros H. rewrite RN_pos_eq by exact H.
  destruct (significand_bounds q H) as [L U].
  apply inject_Z_le_iff in L, U. rewrite <- pw_Z in L, U by lia.
  rewrite !pw_add. pose proof (pw_pos (binade q)) as P.
  split; nra.
Qed.

Lemma RN_0 q : q == 0 -> RN q = 0.
Proof. intros H. unfold RN. apply Qeq_bool_iff in H. rewrite H. reflexivity. Qed.

Lemma RN_pos q : 0 < q -> 0 < RN q.
Proof.
  intros H. destruct (RN_pos_bounds q H) as [L _].
  pose proof (pw_pos (binade q + 52)). lra.
Qed.

Lemma RN_nonneg q : 0 <= q -> 0 <= RN q.
Proof.
  intros H. destruct (Qlt_le_dec 0 q) as [P|N].
  - apply Qlt_le_weak, RN_pos, P.
  - rewrite RN_0 by lra. lra.
Qed.

Lemma binade_mono q1 q2 : 0 < q1 -> q1 <= q2 -> (binade q1 <= binade q2)%Z.
Proof.
  intros H1 H.
  destruct (binade_spec q1 H1) as [L1 U1].
  destruct (binade_spec q2 ltac:(lra)) as [L2 U2].
  destruct (Z.le_gt_cases (binade q1) (binade q2)) as [C|C]; [exact C|exfalso].
  pose proof (pw_le (binade q2 + 53) (binade q1 + 52) ltac:(lia)). lra.
Qed.

Lemma RN_mono_pos q1 q2 : 0 < q1 -> q1 <= q2 -> RN q1 <= RN q2.
Proof.
  intros H1 H.
  assert (H2 : 0 < q2) by lra.
  pose proof (binade_mono q1 q2 H1 H) as B.
  destruct (Z.eq_dec (binade q1) (binade q2)) as [E|NE].
  - rewrite !RN_pos_eq by assumption. rewrite E.
    pose proof (pw_pos (binade q2)) as P.
    assert (M : (rne (q1 / 2 ^ binade q2) <= rne (q2 / 2 ^ binade q2))%Z).
    { apply rne_mono. apply Qle_shift_div_l; [exact P|].
      unfold Qdiv. rewrite <- Qmult_assoc, (Qmult_comm (/ _)), Qmult_inv_r by lra. lra. }
    apply inject_Z_le_iff in M. nra.
  - destruct (RN_pos_bounds q1 H1) as [_ U1].
    destruct (RN_pos_bounds q2 H2) as [L2 _].
    pose proof (pw_le (binade q1 + 53) (binade q2 + 52) ltac:(lia)). lra.
Qed.

Lemma Qabs_opp_eq q : Qabs (- q) = Qabs q.
Proof. destruct q as [n d]. unfold Qabs, Qopp. cbn [Qnum Qden]. rewrite Z.abs_opp. reflexivity. Qed.

Lemma Qeq_bool_opp q : Qeq_bool (- q) 0 = Qeq_bool q 0.
Proof.
  destruct (Qeq_bool q 0) eqn:E.
  - apply Qeq_bool_iff in E. apply Qeq_bool_iff. lra.
  - destruct (Qeq_bool (- q) 0) eqn:E'; [|reflexivity].
    apply Qeq_bool_iff in E'. assert (E2 : q == 0) by lra.
    apply Qeq_bool_iff in E2. congruence.
Qed.

Lemma RN_opp q : RN (- q) == - RN q.
Proof.
  unfold RN. rewrite Qeq_bool_opp, Qabs_opp_eq.
  destruct (Qeq_bool q 0); [reflexivity|]. cbv zeta.
  assert (E : - q / 2 ^ binade (Qabs q) == - (q / 2 ^ binade (Qabs q))).
  { unfold Qdiv. ring. }
  rewrite E, rne_opp, inject_Z_opp. ring.
Qed.

Lemma RN_pos_proper x y : 0 < x -> x == y -> RN x == RN y.
Proof.
  intros Hx E. assert (Hy : 0 < y) by lra.
  rewrite !RN_pos_eq by assumption.
  assert (B : binade x = binade y).
  { destruct (binade_spec y Hy) as [L U]. apply binade_unique; rewrite E; assumption. }
  rewrite B, E. reflexivity.
Qed.

#[global] Instance RN_proper : Proper (Qeq ==> Qeq) RN.
Proof.
  intros x y E.
  destruct (Q_dec 0 x) as [[P|N]|Z].
  - apply RN_pos_proper; assumption.
  - assert (E' : - x == - y) by (rewrite E; reflexivity).
    apply (RN_pos_proper (- x) (- y)) in E'; [|lra].
    rewrite !RN_opp in E'. lra.
  - rewrite (RN_0 x), (RN_0 y) by lra. reflexivity.
Qed.

Lemma RN_mono q1 q2 : q1 <= q2 -> RN q1 <= RN q2.
Proof.
  intros H.
  destruct (Qlt_le_dec 0 q1) as [P1|N1].
  - apply RN_mono_pos; assumption.
  - destruct (Qlt_le_dec 0 q2) as [P2|N2].
    + (* q1 <= 0 < q2 *)
      pose proof (RN_pos q2 P2).
      pose proof (RN_nonneg (- q1) ltac:(lra)) as A. rewrite RN_opp in A. lra.
    + destruct (Qlt_le_dec q2 0) as [S2|Z2].
      * pose proof (RN_mono_pos (- q2) (- q1) ltac:(lra) ltac:(lra)) as A.
        rewrite !RN_opp in A. lra.
      * rewrite (RN_0 q2) by lra.
        pose proof (RN_nonneg (- q1) ltac:(lra)) as A. rewrite RN_opp in A. lra.
Qed.

#[global] Instance representable_proper : Proper (Qeq ==> iff) representable.
Proof.
  intros x y E. unfold representable.
  split; intros (m & e & B & V); exists m, e; (split; [exact B|]); rewrite <- V; [symmetry|]; exact E.
Qed.

Lemma representable_opp x : representable x -> representable (- x).
Proof.
  intros (m & e & B & V). exists (- m)%Z, e. split; [lia|].
  rewrite V, inject_Z_opp. ring.
Qed.

Lemma representable_Z k : (Z.abs k < 2 ^ 53)%Z -> representable (inject_Z k).
Proof. intros B. exists k, 0%Z. split; [exact B|]. change (2 ^ 0) with 1. ring. Qed.

Lemma RN_representable q : representable (RN q).
Proof.
  assert (Pos : forall q, 0 < q -> representable (RN q)).
  { clear q. intros q H. rewrite RN_pos_eq by exact H.
    destruct (significand_bounds q H) as [L U].
    destruct (Z.eq_dec (rne (q / 2 ^ binade q)) (2 ^ 53)%Z) as [E|NE].
    - exists (2 ^ 52)%Z, (binade q + 1)%Z. split; [reflexivity|].
      rewrite E, pw_succ. change (inject_Z (2 ^ 53)) with (2 * inject_Z (2 ^ 52)). ring.
    - exists (rne (q / 2 ^ binade q)), (binade q). split; [lia|reflexivity]. }
  destruct (Q_dec 0 q) as [[P|N]|Z].
  - apply Pos, P.
  - assert (R : representable (- RN (- q))) by (apply representable_opp, Pos; lra).
    rewrite RN_opp in R. rewrite <- (Qopp_involutive (RN q)). exact R.
  - rewrite RN_0 by lra. apply (representable_Z 0). reflexivity.
Qed.

Lemma RN_id_pos x : 0 < x -> representable x -> RN x == x.
Proof.
  intros H (m & e & B & V).
  pose proof (pw_pos e) as Pe.
  assert (Hm : (0 < m)%Z).
  { apply inject_Z_lt_iff. change (inject_Z 0) with 0. rewrite V in H. nra. }
  destruct (binade_spec x H) as [L U].
  set (b := binade x) in *.
  assert (Hb : (b <= e)%Z).
  { destruct (Z.le_gt_cases b e) as [C|C]; [exact C|exfalso].
    assert (M : inject_Z m < inject_Z (2 ^ 53)) by (apply inject_Z_lt_iff; lia).
    rewrite <- pw_Z in M by lia.
    pose proof (pw_le (e + 53) (b + 52) ltac:(lia)) as P.
    rewrite pw_add in P. rewrite V in L. nra. }
  rewrite RN_pos_eq by exact H. fold b.
  assert (S : x / 2 ^ b == inject_Z (m * 2 ^ (e - b))).
  { rewrite inject_Z_mult, <- pw_Z by lia. rewrite V.
    replace e with ((e - b) + b)%Z at 1 by lia. rewrite pw_add.
    pose proof (pw_pos b). field. lra. }
  rewrite S, rne_Z, inject_Z_mult, <- pw_Z by lia. rewrite V.
  replace e with ((e - b) + b)%Z at 2 by lia. rewrite pw_add. ring.
Qed.

Lemma RN_id x : representable x -> RN x == x.
Proof.
  intros R. destruct (Q_dec 0 x) as [[P|N]|Z].
  - apply RN_id_pos; assumption.
  - pose proof (RN_id_pos (- x) ltac:(lra) (representable_opp x R)) as A.
    rewrite RN_opp in A. lra.
  - rewrite RN_0 by lra. lra.
Qed.

Lemma Qrem_bounds x w : 0 < w -> 0 <= Qrem x w /\ Qrem x w < w.
Proof.
  intros Hw. unfold Qrem.
  pose proof (Qfloor_le (x / w)) as L. pose proof (Qlt_floor (x / w)) as U.
  rewrite inject_Z_succ in U.
  assert (E : x == w * (x / w)) by (field; lra).
  remember (inject_Z (Qfloor (x / w))) as f. remember (x / w) as t.
  split; nra.
Qed.

Lemma pw_neg_inv e : (e <= 0)%Z -> 2 ^ e == / inject_Z (2 ^ (- e)).
Proof.
  intros H. rewrite <- pw_Z by lia. rewrite Qpower_opp, Qinv_involutive. reflexivity.
Qed.

Lemma Qrem_representable x (w : Z) :
  0 <= x -> representable x -> (0 < w < 2 ^ 53)%Z -> representable (Qrem x (inject_Z w)).
Proof.
  intros Hx (m & e & B & V) Hw.
  pose proof (pw_pos e) as Pe.
  assert (Hm : (0 <= m)%Z).
  { apply inject_Z_le_iff. change (inject_Z 0) with 0. rewrite V in Hx. nra. }
  assert (HW : 0 < inject_Z w) by (apply (inject_Z_lt_iff 0); lia).
  unfold Qrem.
  destruct (Z.le_gt_cases 0 e) as [C|C].
  - (* an integer *)
    assert (VX : x == inject_Z (m * 2 ^ e)).
    { rewrite inject_Z_mult, <- pw_Z by exact C. exact V. }
    assert (F : Qfloor (x / inject_Z w) = ((m * 2 ^ e) / w)%Z).
    { rewrite Zdiv_Qdiv. apply Qfloor_comp. rewrite VX. reflexivity. }
    rewrite F, VX, <- inject_Z_mult.
    assert (E : inject_Z (m * 2 ^ e) - inject_Z (w * (m * 2 ^ e / w))
                == inject_Z ((m * 2 ^ e) mod w)).
    { rewrite Z.mod_eq by lia. unfold Z.sub. rewrite inject_Z_plus, inject_Z_opp. reflexivity. }
    rewrite E. apply representable_Z.
    pose proof (Z.mod_pos_bound (m * 2 ^ e) w ltac:(lia)). lia.
  - (* a fraction with denominator 2^(-e) *)
    set (P := (2 ^ (- e))%Z).
    assert (HP : (0 < P)%Z) by (apply Z.pow_pos_nonneg; lia).
    assert (HPQ : 0 < inject_Z P) by (apply (inject_Z_lt_iff 0); lia).
    assert (VX : x == inject_Z m / inject_Z P).
    { rewrite V, pw_neg_inv by lia. reflexivity. }
    assert (F : Qfloor (x / inject_Z w) = (m / (P * w))%Z).
    { rewrite Zdiv_Qdiv. apply Qfloor_comp. rewrite VX, inject_Z_mult. field. lra. }
    rewrite F. exists (m mod (P * w))%Z, e. split.
    + pose proof (Z.mod_pos_bound m (P * w) ltac:(lia)).
      pose proof (Z.mod_le m (P * w) Hm ltac:(lia)). lia.
    + rewrite Z.mod_eq by lia. unfold Z.sub.
      rewrite inject_Z_plus, inject_Z_opp, !inject_Z_mult.
      rewrite VX, pw_neg_inv by lia. fold P. field. lra.
Qed.

End Rounding.

(** * The embedding evaluated

    Values CPython 3.11 prints for the same inputs. *)

Example RN_59_7 :
  Qred (RN (597 # 10)) = (4201014027406541 # 70368744177664)%Q.
Proof. vm_compute. reflexivity. Qed.

Example RN_0_1 :
  Qred (RN (1 # 10)) = (3602879701896397 # 36028797018963968)%Q.
Proof. vm_compute. reflexivity. Qed.

Example format_0f_ties :
  map format_0f [(1 # 2)%Q; (3 # 2)%Q; (5 # 2)%Q; (-4 # 10)%Q; (-3 # 2)%Q]
  = ["0"; "2"; "2"; "-0"; "-2"].
Proof. vm_compute. reflexivity. Qed.

Example isoformat_leap_day :
  isoformat {| micros := 63844806896000789 |} = "2024-02-29T12:34:56.000789".
Proof. vm_compute. reflexivity. Qed.

Example isoformat_whole_second :
  isoformat {| micros := 59931622923000000 |} = "1900-02-28T01:02:03".
Proof. vm_compute. reflexivity. Qed.

Example isoformat_last :
  isoformat {| micros := 315537897599000000 |} = "9999-12-31T23:59:59".
Proof. vm_compute. reflexivity. Qed.

Example human_3599_5 :
  human (total_seconds {| total_microseconds := 3599500000 |}) = "0h 59m 60s".
Proof. vm_compute. reflexivity. Qed.

Example human_one_microsecond_early :
  human (total_seconds {| total_microseconds := -1 |}) = "-1h 59m 60s".
Proof. vm_compute. reflexivity. Qed.

Example framework_routes_answer :
  map (fun path => fst (http_get path (example_host 0) example_process))
      ["/openapi.json"; "/docs"; "/docs/oauth2-redirect"; "/redoc"]
  = [ {| http_status := 200; body := OpenAPIDocument |};
      {| http_status := 200; body := SwaggerUIPage |};
      {| http_status := 200; body := OAuth2RedirectPage |};
      {| http_status := 200; body := ReDocPage |} ].
Proof. vm_compute. reflexivity. Qed.

Example trailing_slash_redirects :
  map (fun path => fst (http_get path (example_host 0) example_process))
      ["/health/"; "/api/status/"; "/docs/"]
  = [ {| http_status := 307; body := RedirectTo "/health" |};
      {| http_status := 307; body := RedirectTo "/api/status" |};
      {| http_status := 307; body := RedirectTo "/docs" |} ].
Proof. vm_compute. reflexivity. Qed.

Example unmatched_paths_get_500 :
  map (fun path => fst (http_get path (example_host 0) example_process))
      ["/nonexistent"; "/Health"; "/api"; "//"]
  = [ {| http_status := 500; body := PlainText "Internal Server Error" |};
      {| http_status := 500; body := PlainText "Internal Server Error" |};
      {| http_status := 500; body := PlainText "Internal Server Error" |};
      {| http_status := 500; body := PlainText "Internal Server Error" |} ].
Proof. vm_compute. reflexivity. Qed.

(** * The handlers *)

(** ** Frame: handlers only read the process state *)

Lemma app_frame path h p : snd (app path h p) = p.
Proof.
  unfold app. destruct (lookup_route routes path) as [[]|]; try reflexivity.
  destruct (if String.eqb path "/" then None
            else lookup_route routes (redirect_path path));
    reflexivity.
Qed.

Lemma serve_frame reqs p : snd (serve reqs p) = p.
Proof.
  revert p. induction reqs as [|[path h] rest IH]; intros p; [reflexivity|].
  cbn [serve]. pose proof (app_frame path h p) as F.
  destruct (app path h p) as [r p']. cbn in F. subst p'.
  specialize (IH p). destruct (serve rest p) as [rs p'']. exact IH.
Qed.

(** ** [GET /] *)

(** C6: every [GET /] is answered with status 200, with [version] equal
    to "1.0.0" and with non-empty [features] and [tech_stack] lists. *)
Theorem root_ok_version_features :
  forall (h : Host) (p : Process),
  exists r : AppInfoResponse.t,
    fst (app "/" h p) = inl {| http_status := 200; body := AppInfoBody r |} /\
    AppInfoResponse.version r = "1.0.0" /\
    AppInfoResponse.features r <> [] /\
    AppInfoResponse.tech_stack r <> [].
Proof.
  intros h p. eexists. split; [reflexivity|].
  cbn. repeat split; discriminate.
Qed.

(** C7: any two [GET /] requests get the same answer, whatever the clock,
    the interpreter, the platform, the environment variables and the
    start time are at each of them. *)
Theorem root_is_constant :
  forall (h1 h2 : Host) (p1 p2 : Process),
    fst (app "/" h1 p1) = fst (app "/" h2 p2).
Proof. intros h1 h2 p1 p2. reflexivity. Qed.

(** ** [GET /api/status] *)

(** C5: every [GET /api/status] is answered with [service] equal to
    "python-demo-app", [status] to "running", [version] to "1.0.0", and
    [python_version] made of the major, minor and micro numbers of the
    running interpreter, in decimal, separated by dots. *)
Theorem status_fields :
  forall (h : Host) (p : Process),
  exists r : StatusResponse.t,
    fst (app "/api/status" h p)
      = inl {| http_status := 200; body := StatusBody r |} /\
    StatusResponse.service r = "python-demo-app" /\
    StatusResponse.status r = "running" /\
    StatusResponse.version r = "1.0.0" /\
    StatusResponse.python_version r
      = pretty (major (version_info h)) ++ "." ++
        pretty (minor (version_info h)) ++ "." ++
        pretty (micro (version_info h)).
Proof.
  intros h p. eexists. split; [reflexivity|]. cbn. repeat split.
Qed.

(** ** Uptime *)

Lemma total_seconds_mono (d1 d2 : timedelta) :
  total_microseconds d1 <= total_microseconds d2 ->
  (total_seconds d1 <= total_seconds d2)%Q.
Proof.
  intros H. unfold total_seconds, int_truediv. apply RN_mono.
  apply inject_Z_le_iff in H. unfold Qdiv.
  apply Qmult_le_compat_r; [exact H | discriminate].
Qed.

Lemma total_seconds_zero (d : timedelta) :
  total_microseconds d = 0 -> total_seconds d = 0%Q.
Proof. intros H. unfold total_seconds, int_truediv. rewrite H. reflexivity. Qed.

Lemma total_seconds_nonneg (d : timedelta) :
  0 <= total_microseconds d -> (0 <= total_seconds d)%Q.
Proof.
  intros H.
  pose proof (total_seconds_mono {| total_microseconds := 0 |} d H) as M.
  rewrite (total_seconds_zero {| total_microseconds := 0 |} eq_refl) in M.
  exact M.
Qed.

Lemma RN_neg (q : Q) : (q < 0 -> RN q < 0)%Q.
Proof.
  intros H. pose proof (RN_pos (- q)%Q ltac:(lra)) as P. rewrite RN_opp in P. lra.
Qed.

Lemma total_seconds_neg (d : timedelta) :
  total_microseconds d < 0 -> (total_seconds d < 0)%Q.
Proof.
  intros H. unfold total_seconds, int_truediv. apply RN_neg.
  assert (N : (inject_Z (total_microseconds d) < 0)%Q)
    by (apply (inject_Z_lt_iff _ 0); exact H).
  apply Qlt_shift_div_r; [reflexivity | lra].
Qed.

Lemma total_seconds_representable (d : timedelta) :
  representable (total_seconds d).
Proof. apply RN_representable. Qed.

(** ** [GET /health] *)

Lemma health_answer (h : Host) (p : Process) :
  fst (app "/health" h p)
  = inl {| http_status := 200;
           body := HealthBody {|
             HealthResponse.status := "healthy";
             HealthResponse.timestamp := isoformat (now h);
             HealthResponse.uptime :=
               total_seconds (datetime_sub (now h) (start_time p));
             HealthResponse.environment :=
               default "development" (environ p !! "ENVIRONMENT");
             HealthResponse.python_version := sys_version h |} |}.
Proof. reflexivity. Qed.

(** C4, as stated, fails: one second before the start time on the clock,
    [GET /health] reports an uptime below zero. *)
Lemma health_uptime_negative_before_start :
  micros (now (example_host (-1000000))) < micros (start_time example_process) /\
  exists r : HealthResponse.t,
    fst (app "/health" (example_host (-1000000)) example_process)
      = inl {| http_status := 200; body := HealthBody r |} /\
    (HealthResponse.uptime r == -1)%Q /\
    (HealthResponse.uptime r < 0)%Q.
Proof.
  split; [cbn; lia|].
  eexists. split; [apply health_answer|].
  cbn [HealthResponse.uptime]. split; vm_compute; reflexivity.
Qed.

(** C4, amended: every [GET /health] is answered with [status] equal to
    "healthy", with [environment] equal to the value of the variable
    ENVIRONMENT, or to "development" when it is unset, and with, as
    [uptime], the microseconds from the start time to the clock reading
    divided by 10^6 as a float; that uptime is non-negative exactly when
    the clock is not behind the start time. *)
Theorem health_fields :
  forall (h : Host) (p : Process),
  exists r : HealthResponse.t,
    fst (app "/health" h p)
      = inl {| http_status := 200; body := HealthBody r |} /\
    HealthResponse.status r = "healthy" /\
    HealthResponse.uptime r
      = RN (inject_Z (micros (now h) - micros (start_time p)) / 1000000) /\
    (micros (start_time p) <= micros (now h)
     <-> (0 <= HealthResponse.uptime r)%Q) /\
    HealthResponse.environment r
      = match environ p !! "ENVIRONMENT" with
        | Some v => v
        | None => "development"
        end.
Proof.
  intros h p. eexists. split; [apply health_answer|].
  cbn [HealthResponse.status HealthResponse.uptime HealthResponse.environment].
  split; [reflexivity|]. split; [reflexivity|]. split.
  - split.
    + intros Hclock. apply total_seconds_nonneg. cbn. lia.
    + intros Hup.
      destruct (Z.le_gt_cases (micros (start_time p)) (micros (now h)))
        as [L|G]; [exact L|exfalso].
      assert (N : (total_seconds (datetime_sub (now h) (start_time p)) < 0)%Q)
        by (apply total_seconds_neg; cbn; lia).
      apply (Qlt_not_le _ _ N Hup).
  - destruct (environ p !! "ENVIRONMENT"); reflexivity.
Qed.

Lemma health_fields_witness :
  exists r : HealthResponse.t,
    fst (app "/health" (example_host 1500000) example_process)
      = inl {| http_status := 200; body := HealthBody r |} /\
    HealthResponse.status r = "healthy" /\
    HealthResponse.uptime r
      = RN (inject_Z (micros (now (example_host 1500000))
                      - micros (start_time example_process)) / 1000000) /\
    (micros (start_time example_process) <= micros (now (example_host 1500000))
     <-> (0 <= HealthResponse.uptime r)%Q) /\
    HealthResponse.environment r
      = match environ example_process !! "ENVIRONMENT" with
        | Some v => v
        | None => "development"
        end.
Proof.
  exact (health_fields (example_host 1500000) example_process).
Defined.



(** ** No handler writes *)


(** ** Unmatched paths *)


(** C2: a request for [/nonexistent] is not answered with status 404 and
    the detail of [not_found_handler]: no route matches, the router's 404
    goes to [not_found_handler], and that handler raises its
    [HTTPException] instead of returning a response, so the exception
    leaves the exception handlers and the client receives status 500 with
    the text "Internal Server Error". *)
Theorem not_found_handler_answers_500 :
  forall (h : Host) (p : Process),
    app "/nonexistent" h p
    = (inr {| status_code := 404;
              detail :=
                DetailNotFound "Endpoint not found"
                  ["/"; "/health"; "/api/status"; "/api/metrics"; "/docs"]
                  "/docs" |},
       p) /\
    http_get "/nonexistent" h p
    = ({| http_status := 500; body := PlainText "Internal Server Error" |}, p).
Proof. intros h p. split; reflexivity. Qed.

(** ** Uptime over a sequence of requests *)

Lemma serve_eq (reqs : list (string * Host)) (p : Process) :
  serve reqs p
  = (map (fun req => fst (app (fst req) (snd req) p)) reqs, p).
Proof.
  induction reqs as [|[path h] rest IH]; [reflexivity|].
  cbn [serve map fst snd].
  pose proof (app_frame path h p) as F.
  destruct (app path h p) as [r p']. cbn [snd] in F. subst p'.
  rewrite IH. reflexivity.
Qed.

Lemma reported_uptime_call (e : Endpoint) (h : Host) (p : Process) (u : Q) :
  reported_uptime (fst (call e h p)) = Some u ->
  u = total_seconds (datetime_sub (now h) (start_time p)).
Proof.
  destruct e; intros H;
    cbv [call respond bind ret raise root health_check get_status get_metrics
         read_start_time getenv fst reported_uptime] in H;
    first [discriminate H | injection H as <-; reflexivity].
Qed.

Lemma reported_uptime_app (path : string) (h : Host) (p : Process) (u : Q) :
  reported_uptime (fst (app path h p)) = Some u ->
  u = total_seconds (datetime_sub (now h) (start_time p)).
Proof.
  unfold app. destruct (lookup_route routes path) as [e|].
  - apply reported_uptime_call.
  - destruct (if String.eqb path "/" then None
              else lookup_route routes (redirect_path path));
      intros H; discriminate H.
Qed.

Lemma reported_uptimes_above (p : Process) (a : string * Host) (u : Q)
    (l : list (string * Host)) :
  reported_uptime (fst (app (fst a) (snd a) p)) = Some u ->
  Forall (clock_le a) l ->
  Forall (Qle u)
    (reported_uptimes (map (fun req => fst (app (fst req) (snd req) p)) l)).
Proof.
  intros Hu HF. induction HF as [|b l Hab _ IH]; [constructor|].
  cbn [map reported_uptimes].
  destruct (reported_uptime (fst (app (fst b) (snd b) p))) as [v|] eqn:Hv;
    [|exact IH].
  constructor; [|exact IH].
  rewrite (reported_uptime_app _ _ _ _ Hu), (reported_uptime_app _ _ _ _ Hv).
  apply total_seconds_mono. unfold clock_le in Hab. cbn. lia.
Qed.

Lemma reported_uptimes_sorted (p : Process) (reqs : list (string * Host)) :
  StronglySorted clock_le reqs ->
  StronglySorted Qle
    (reported_uptimes (map (fun req => fst (app (fst req) (snd req) p)) reqs)).
Proof.
  induction 1 as [|a l _ IH HF]; [constructor|].
  cbn [map reported_uptimes].
  destruct (reported_uptime (fst (app (fst a) (snd a) p))) as [u|] eqn:Hu;
    [|exact IH].
  constructor; [exact IH|].
  apply (reported_uptimes_above p a u l Hu HF).
Qed.

(** C3, as stated, fails: the clock is the wall clock.  When it reads two
    seconds after the start at one request and one second after the start
    at the next, the uptimes reported are 2 and then 1. *)
Lemma uptime_decreases_when_clock_steps_back :
  reported_uptimes
    (fst (serve [ ("/health", example_host 2000000);
                  ("/health", example_host 1000000) ]
                (init (example_host 0) ∅)))
  = [ total_seconds {| total_microseconds := 2000000 |};
      total_seconds {| total_microseconds := 1000000 |} ] /\
  (total_seconds {| total_microseconds := 2000000 |} == 2)%Q /\
  (total_seconds {| total_microseconds := 1000000 |} == 1)%Q /\
  ~ StronglySorted Qle
      (reported_uptimes
         (fst (serve [ ("/health", example_host 2000000);
                       ("/health", example_host 1000000) ]
                     (init (example_host 0) ∅)))).
Proof.
  assert (E : reported_uptimes
                (fst (serve [ ("/health", example_host 2000000);
                              ("/health", example_host 1000000) ]
                            (init (example_host 0) ∅)))
              = [ total_seconds {| total_microseconds := 2000000 |};
                  total_seconds {| total_microseconds := 1000000 |} ])
    by reflexivity.
  split; [exact E|]. split; [vm_compute; reflexivity|].
  split; [vm_compute; reflexivity|].
  rewrite E. intros S. inversion S as [|a l _ F]; subst.
  inversion F as [|b l' L _]; subst.
  vm_compute in L. apply L. reflexivity.
Qed.

(** C3, amended: over any sequence of requests served by one process, the
    start time is the clock reading taken when the process was set up and
    the process state at the end is the one at the start; [/health] and
    [/api/metrics] report, as uptime, the microseconds from the start time
    to the clock reading of the request divided by 10^6 as a float, and
    no answer reports anything else as uptime; and when the clock readings
    do not decrease from one request to the next, the reported uptimes do
    not decrease either. *)
Theorem uptime_monotone :
  forall (h0 : Host) (env : gmap string string) (reqs : list (string * Host)),
    let p := init h0 env in
    start_time p = now h0 /\
    snd (serve reqs p) = p /\
    Forall2
      (fun req answer =>
         let elapsed :=
           RN (inject_Z (micros (now (snd req)) - micros (now h0)) / 1000000) in
         (fst req = "/health" \/ fst req = "/api/metrics" ->
          reported_uptime answer = Some elapsed) /\
         (forall u : Q, reported_uptime answer = Some u -> u = elapsed))
      reqs (fst (serve reqs p)) /\
    (StronglySorted clock_le reqs ->
     StronglySorted Qle (reported_uptimes (fst (serve reqs p)))).
Proof.
  intros h0 env reqs p. rewrite serve_eq. cbn [fst snd].
  split; [reflexivity|]. split; [reflexivity|]. split.
  - induction reqs as [|[path h] rest IH]; constructor; [|exact IH].
    cbv zeta. cbn [fst snd]. split.
    + intros [E|E]; subst path; reflexivity.
    + intros u Hu. apply (reported_uptime_app _ _ _ _ Hu).
  - apply reported_uptimes_sorted.
Qed.

Lemma uptime_monotone_witness :
  StronglySorted clock_le
    [ ("/health", example_host 1000000);
      ("/", example_host 1200000);
      ("/api/metrics", example_host 2500000) ] /\
  StronglySorted Qle
    (reported_uptimes
       (fst (serve
               [ ("/health", example_host 1000000);
                 ("/", example_host 1200000);
                 ("/api/metrics", example_host 2500000) ]
               (init (example_host 0) ∅)))).
Proof.
  assert (S : StronglySorted clock_le
                [ ("/health", example_host 1000000);
                  ("/", example_host 1200000);
                  ("/api/metrics", example_host 2500000) ]).
  { repeat constructor; unfold clock_le; cbn; lia. }
  split; [exact S|].
  exact (proj2 (proj2 (proj2 (uptime_monotone (example_host 0) ∅ _))) S).
Defined.

(** ** [GET /api/metrics]: the human-readable uptime *)

Lemma metrics_answer (h : Host) (p : Process) :
  fst (app "/api/metrics" h p)
  = inl {| http_status := 200;
           body := MetricsBody {|
             MetricsResponse.uptime_seconds :=
               total_seconds (datetime_sub (now h) (start_time p));
             MetricsResponse.uptime_human :=
               human (total_seconds (datetime_sub (now h) (start_time p)));
             MetricsResponse.memory_info :=
               {| MetricsResponse.available := "simulation";
                  MetricsResponse.used := "simulation" |};
             MetricsResponse.requests_total := "simulation";
             MetricsResponse.python_info :=
               {| MetricsResponse.version := sys_version h;
                  MetricsResponse.platform := platform_platform h;
                  MetricsResponse.architecture :=
                    fst (platform_architecture h) |} |} |}.
Proof. reflexivity. Qed.

Section Fields.
Local Open Scope Q_scope.

Lemma Qle_bool_proper (a x y : Q) : x == y -> Qle_bool a x = Qle_bool a y.
Proof.
  intros E. destruct (Qle_bool a y) eqn:Hy.
  - apply Qle_bool_iff. apply Qle_bool_iff in Hy. rewrite E. exact Hy.
  - destruct (Qle_bool a x) eqn:Hx; [|reflexivity].
    apply Qle_bool_iff in Hx. rewrite E in Hx. apply Qle_bool_iff in Hx. congruence.
Qed.

Lemma format_0f_proper (x y : Q) : x == y -> format_0f x = format_0f y.
Proof.
  intros E. unfold format_0f. rewrite (Qle_bool_proper 0 x y E), (rne_proper x y E).
  reflexivity.
Qed.

Lemma format_0f_nonneg (x : Q) : 0 <= x -> format_0f x = pretty (rne x).
Proof.
  intros H. unfold format_0f. apply Qle_bool_iff in H. rewrite H. reflexivity.
Qed.

Lemma format_0f_Z (k : Z) : (0 <= k)%Z -> format_0f (inject_Z k) = pretty k.
Proof.
  intros H. rewrite format_0f_nonneg, rne_Z; [reflexivity|].
  apply (inject_Z_le_iff 0). exact H.
Qed.

Lemma rne_nonneg (x : Q) : 0 <= x -> (0 <= rne x)%Z.
Proof. intros H. rewrite <- (rne_Z 0). apply rne_mono. exact H. Qed.

(** A floor quotient below 2^53 is a float. *)
Lemma float_floordiv_exact (x w : Q) :
  (Z.abs (Qfloor (x / w)) < 2 ^ 53)%Z ->
  float_floordiv x w == inject_Z (Qfloor (x / w)).
Proof. intros B. unfold float_floordiv. apply RN_id, representable_Z, B. Qed.

(** The remainder of a non-negative float by a positive integer below
    2^53 is a float. *)
Lemma float_mod_exact (x : Q) (w : Z) :
  0 <= x -> representable x -> (0 < w < 2 ^ 53)%Z ->
  float_mod x (inject_Z w) == Qrem x (inject_Z w).
Proof.
  intros Hx R Hw. unfold float_mod. apply RN_id, Qrem_representable; assumption.
Qed.

Lemma seconds_field_eq (x : Q) :
  0 <= x -> representable x -> seconds_field x = pretty (rne (Qrem x 60)).
Proof.
  intros Hx R. unfold seconds_field.
  pose proof (float_mod_exact x 60 Hx R ltac:(lia)) as E.
  change (inject_Z 60) with 60 in E.
  rewrite (format_0f_proper _ _ E).
  apply format_0f_nonneg. apply (Qrem_bounds x 60). reflexivity.
Qed.

Lemma seconds_bounds (r : Q) :
  0 <= r -> r < 60 ->
  (0 <= rne r <= 60)%Z /\ (rne r = 60%Z <-> 119 # 2 <= r).
Proof.
  intros L U.
  assert (U60 : (rne r <= 60)%Z).
  { rewrite <- (rne_Z 60). apply rne_mono. apply Qlt_le_weak, U. }
  split; [split; [apply rne_nonneg, L | exact U60]|]. split.
  - intros E. pose proof (rne_lower r) as Lo. rewrite E in Lo.
    change (inject_Z 60) with 60 in Lo. lra.
  - intros H. assert (G : (60 <= rne r)%Z).
    { change 60%Z with (rne (119 # 2)). apply rne_mono, H. }
    lia.
Qed.

Lemma minutes_floor_bounds (r : Q) :
  0 <= r -> r < 3600 -> (0 <= Qfloor (r / 60) <= 59)%Z.
Proof.
  intros L U. split.
  - change 0%Z with (Qfloor 0). apply Qfloor_resp_le.
    apply Qle_shift_div_l; [reflexivity | lra].
  - pose proof (Qfloor_le (r / 60)) as F.
    assert (D : r / 60 < 60) by (apply Qlt_shift_div_r; [reflexivity | lra]).
    assert (G : (Qfloor (r / 60) < 60)%Z)
      by (apply inject_Z_lt_iff; change (inject_Z 60) with 60; lra).
    lia.
Qed.

Lemma minutes_field_eq (x : Q) :
  0 <= x -> representable x ->
  minutes_field x = pretty (Qfloor (Qrem x 3600 / 60)).
Proof.
  intros Hx R. unfold minutes_field.
  pose proof (float_mod_exact x 3600 Hx R ltac:(lia)) as E.
  change (inject_Z 3600) with 3600 in E.
  destruct (Qrem_bounds x 3600 eq_refl) as [L U].
  pose proof (minutes_floor_bounds _ L U) as B.
  assert (F : Qfloor (float_mod x 3600 / 60) = Qfloor (Qrem x 3600 / 60)).
  { apply Qfloor_comp. rewrite E. reflexivity. }
  rewrite (format_0f_proper _ (inject_Z (Qfloor (Qrem x 3600 / 60)))).
  - apply format_0f_Z. lia.
  - rewrite float_floordiv_exact; rewrite F; [reflexivity | lia].
Qed.

Lemma hours_floor_nonneg (x : Q) : 0 <= x -> (0 <= Qfloor (x / 3600))%Z.
Proof.
  intros Hx. change 0%Z with (Qfloor 0). apply Qfloor_resp_le.
  apply Qle_shift_div_l; [reflexivity | lra].
Qed.

Lemma hours_field_eq (x : Q) :
  0 <= x ->
  hours_field x = pretty (rne (float_floordiv x 3600)) /\
  (0 <= rne (float_floordiv x 3600))%Z /\
  ((Qfloor (x / 3600) < 2 ^ 53)%Z ->
   rne (float_floordiv x 3600) = Qfloor (x / 3600)).
Proof.
  intros Hx. pose proof (hours_floor_nonneg x Hx) as F.
  assert (N : 0 <= float_floordiv x 3600).
  { unfold float_floordiv. apply RN_nonneg. apply (inject_Z_le_iff 0), F. }
  split; [apply format_0f_nonneg, N|]. split; [apply rne_nonneg, N|].
  intros B. rewrite (rne_proper _ _ (float_floordiv_exact x 3600 ltac:(lia))).
  apply rne_Z.
Qed.

End Fields.

(** C1: a request that arrives 59.7 seconds after the start is told
    "0h 0m 60s": the seconds are the remainder rounded to the nearest
    integer, where integer division of the uptime into hours, minutes
    and seconds gives "0h 0m 59s". *)
Theorem metrics_seconds_rounded_up :
  exists r : MetricsResponse.t,
    fst (app "/api/metrics" (example_host 59700000) example_process)
      = inl {| http_status := 200; body := MetricsBody r |} /\
    MetricsResponse.uptime_human r = "0h 0m 60s" /\
    human_by_integer_division (MetricsResponse.uptime_seconds r)
      = "0h 0m 59s".
Proof.
  eexists. split; [apply metrics_answer|].
  split; vm_compute; reflexivity.
Qed.

(** C9, as stated, fails: 61 hours after the start the hours field is
    "61", which is no integer between 0 and 60. *)
Lemma hours_field_above_60 :
  exists r : MetricsResponse.t,
    fst (app "/api/metrics" (example_host 219600000000) example_process)
      = inl {| http_status := 200; body := MetricsBody r |} /\
    MetricsResponse.uptime_human r = "61h 0m 0s" /\
    ~ field_in_range (hours_field (MetricsResponse.uptime_seconds r)) 0 60.
Proof.
  eexists. split; [apply metrics_answer|].
  cbn [MetricsResponse.uptime_human MetricsResponse.uptime_seconds].
  split; [vm_compute; reflexivity|].
  intros (k & B & E).
  assert (V : hours_field
                (total_seconds
                   (datetime_sub (now (example_host 219600000000))
                      (start_time example_process)))
              = pretty 61) by (vm_compute; reflexivity).
  rewrite V in E. apply (inj pretty) in E. lia.
Qed.

(** C9, amended: when the clock is not behind the start time, the
    human-readable uptime is "{H}h {M}m {S}s" where each field is the
    [.0f] rendering of a float: H of the floored quotient of the uptime by
    3600, a non-negative integer with no upper bound (the floor itself
    below 2^53); M of the floored quotient by 60 of the remainder modulo
    3600, between 0 and 59; S of the remainder modulo 60 rounded to the
    nearest integer, ties to even, between 0 and 60, and 60 exactly when
    that remainder is 59.5 or more. *)
Theorem uptime_human_fields :
  forall (h : Host) (p : Process),
    micros (start_time p) <= micros (now h) ->
    exists (r : MetricsResponse.t) (H M S : Z),
      fst (app "/api/metrics" h p)
        = inl {| http_status := 200; body := MetricsBody r |} /\
      MetricsResponse.uptime_human r
        = pretty H ++ "h " ++ pretty M ++ "m " ++ pretty S ++ "s" /\
      let x := MetricsResponse.uptime_seconds r in
      x = total_seconds (datetime_sub (now h) (start_time p)) /\
      (0 <= H /\ (Qfloor (x / 3600) < 2 ^ 53 -> H = Qfloor (x / 3600))) /\
      (M = Qfloor (Qrem x 3600 / 60) /\ 0 <= M <= 59) /\
      (S = rne (Qrem x 60) /\ 0 <= S <= 60 /\
       (S = 60 <-> (119 # 2 <= Qrem x 60)%Q)).
Proof.
  intros h p Hclock.
  set (x := total_seconds (datetime_sub (now h) (start_time p))).
  assert (Hx : (0 <= x)%Q) by (apply total_seconds_nonneg; cbn; lia).
  assert (R : representable x) by apply total_seconds_representable.
  destruct (hours_field_eq x Hx) as (EH & NH & XH).
  destruct (Qrem_bounds x 3600 eq_refl) as [LM UM].
  destruct (Qrem_bounds x 60 eq_refl) as [LS US].
  destruct (seconds_bounds _ LS US) as [BS TS].
  exists {| MetricsResponse.uptime_seconds := x;
            MetricsResponse.uptime_human := human x;
            MetricsResponse.memory_info :=
              {| MetricsResponse.available := "simulation";
                 MetricsResponse.used := "simulation" |};
            MetricsResponse.requests_total := "simulation";
            MetricsResponse.python_info :=
              {| MetricsResponse.version := sys_version h;
                 MetricsResponse.platform := platform_platform h;
                 MetricsResponse.architecture :=
                   fst (platform_architecture h) |} |},
    (rne (float_floordiv x 3600)), (Qfloor (Qrem x 3600 / 60)),
    (rne (Qrem x 60)).
  split; [apply metrics_answer|].
  cbn [MetricsResponse.uptime_human MetricsResponse.uptime_seconds].
  split.
  - unfold human.
    rewrite EH, (minutes_field_eq x Hx R), (seconds_field_eq x Hx R).
    reflexivity.
  - cbv zeta. split; [reflexivity|]. split; [split; assumption|]. split.
    + split; [reflexivity | apply minutes_floor_bounds; assumption].
    + split; [reflexivity|]. split; assumption.
Qed.

Lemma uptime_human_fields_witness :
  micros (start_time example_process) <= micros (now (example_host 59700000)) /\
  exists (r : MetricsResponse.t) (H M S : Z),
    fst (app "/api/metrics" (example_host 59700000) example_process)
      = inl {| http_status := 200; body := MetricsBody r |} /\
    MetricsResponse.uptime_human r
      = pretty H ++ "h " ++ pretty M ++ "m " ++ pretty S ++ "s" /\
    let x := MetricsResponse.uptime_seconds r in
    x = total_seconds
          (datetime_sub (now (example_host 59700000))
             (start_time example_process)) /\
    (0 <= H /\ (Qfloor (x / 3600) < 2 ^ 53 -> H = Qfloor (x / 3600))) /\
    (M = Qfloor (Qrem x 3600 / 60) /\ 0 <= M <= 59) /\
    (S = rne (Qrem x 60) /\ 0 <= S <= 60 /\
     (S = 60 <-> (119 # 2 <= Qrem x 60)%Q)).
Proof.
  assert (H : micros (start_time example_process)
              <= micros (now (example_host 59700000))) by (cbn; lia).
  split; [exact H|].
  exact (uptime_human_fields (example_host 59700000) example_process H).
Defined.

(** * Further properties of the handlers *)

Section Resolution.
Local Open Scope Q_scope.

(** The rounding error is at most half a unit in the last place, which
    is at most the value times 2^-53. *)
Lemma RN_error_pos q :
  0 < q ->
  RN q - q <= q / inject_Z (2 ^ 53) /\ q - RN q <= q / inject_Z (2 ^ 53).
Proof.
  intros H. rewrite RN_pos_eq by exact H.
  destruct (binade_spec q H) as [L _]. rewrite pw_add in L.
  rewrite (pw_Z 52) in L by lia.
  pose proof (pw_pos (binade q)) as P.
  pose proof (rne_lower (q / 2 ^ binade q)) as Lo.
  pose proof (rne_upper (q / 2 ^ binade q)) as Up.
  assert (E : q == (q / 2 ^ binade q) * 2 ^ binade q) by (field; lra).
  remember (inject_Z (rne (q / 2 ^ binade q))) as m.
  remember (q / 2 ^ binade q) as s. remember (2 ^ binade q) as p.
  assert (B : p * (1 # 2) <= q / inject_Z (2 ^ 53)).
  { apply Qle_shift_div_l; [reflexivity|].
    change (inject_Z (2 ^ 53)) with 9007199254740992.
    change (inject_Z (2 ^ 52)) with 4503599627370496 in L. lra. }
  remember (q / inject_Z (2 ^ 53)) as t.
  clear Heqm Heqs Heqp Heqt. split; nra.
Qed.

Lemma RN_strict q1 q2 :
  0 <= q1 -> q1 < q2 ->
  (q1 + q2) / inject_Z (2 ^ 53) < q2 - q1 ->
  RN q1 < RN q2.
Proof.
  intros H1 H12 G.
  assert (H2 : 0 < q2) by lra.
  destruct (RN_error_pos q2 H2) as [_ E2].
  assert (D : (q1 + q2) / inject_Z (2 ^ 53)
              == q1 / inject_Z (2 ^ 53) + q2 / inject_Z (2 ^ 53)) by (field; discriminate).
  destruct (Qlt_le_dec 0 q1) as [P1|Z1].
  - destruct (RN_error_pos q1 P1) as [E1 _]. lra.
  - rewrite (RN_0 q1) by lra. apply RN_pos, H2.
Qed.

Lemma total_seconds_strict (d1 d2 : timedelta) :
  (0 <= total_microseconds d1 < total_microseconds d2)%Z ->
  (total_microseconds d1 + total_microseconds d2 < 2 ^ 53)%Z ->
  total_seconds d1 < total_seconds d2.
Proof.
  intros [H0 H12] HB. unfold total_seconds, int_truediv.
  set (a := total_microseconds d1) in *. set (b := total_microseconds d2) in *.
  assert (A0 : 0 <= inject_Z a) by (apply (inject_Z_le_iff 0); exact H0).
  assert (AB : inject_Z a + 1 <= inject_Z b).
  { rewrite <- inject_Z_succ. apply inject_Z_le_iff. lia. }
  assert (S : inject_Z a + inject_Z b + 1 <= inject_Z (2 ^ 53)).
  { rewrite <- inject_Z_plus, <- inject_Z_succ. apply inject_Z_le_iff. lia. }
  change (inject_Z (2 ^ 53)) with 9007199254740992 in S.
  change (inject_Z 1000000) with 1000000.
  remember (inject_Z a) as qa. remember (inject_Z b) as qb.
  apply RN_strict.
  - apply Qle_shift_div_l; [reflexivity | lra].
  - apply Qlt_shift_div_l; [reflexivity|].
    assert (E : qa / 1000000 * 1000000 == qa) by (field; discriminate). lra.
  - change (inject_Z (2 ^ 53)) with 9007199254740992.
    assert (E1 : (qa / 1000000 + qb / 1000000) / 9007199254740992
                 == (qa + qb) / 9007199254740992000000) by (field; discriminate).
    assert (E2 : qb / 1000000 - qa / 1000000 == (qb - qa) / 1000000) by (field; discriminate).
    rewrite E1, E2.
    apply Qlt_shift_div_r; [reflexivity|].
    assert (E3 : (qb - qa) / 1000000 * 9007199254740992000000
                 == (qb - qa) * 9007199254740992) by (field; discriminate).
    rewrite E3. lra.
Qed.

End Resolution.

Section Floors.
Local Open Scope Q_scope.

Lemma Qfloor_unique (q : Q) (k : Z) :
  inject_Z k <= q -> q < inject_Z (k + 1) -> Qfloor q = k.
Proof.
  intros L U.
  pose proof (Qfloor_le q) as FL. pose proof (Qlt_floor q) as FU.
  assert (A : (Qfloor q < k + 1)%Z) by (apply inject_Z_lt_iff; lra).
  assert (B : (k < Qfloor q + 1)%Z) by (apply inject_Z_lt_iff; lra).
  lia.
Qed.

Lemma Qfloor_add_Z (n : Z) (t : Q) : Qfloor (inject_Z n + t) = (n + Qfloor t)%Z.
Proof.
  pose proof (Qfloor_le t) as FL. pose proof (Qlt_floor t) as FU.
  apply Qfloor_unique.
  - rewrite inject_Z_plus. lra.
  - replace (n + Qfloor t + 1)%Z with (n + (Qfloor t + 1))%Z by lia.
    rewrite inject_Z_plus. lra.
Qed.

Lemma Qfloor_div_Z (x : Q) (n : Z) :
  (0 < n)%Z -> Qfloor (x / inject_Z n) = (Qfloor x / n)%Z.
Proof.
  intros Hn.
  pose proof (Qfloor_le x) as FL. pose proof (Qlt_floor x) as FU.
  assert (HN : 0 < inject_Z n) by (apply (inject_Z_lt_iff 0); exact Hn).
  pose proof (Z.mul_div_le (Qfloor x) n Hn) as D1.
  pose proof (Z.mul_succ_div_gt (Qfloor x) n Hn) as D2.
  apply Qfloor_unique.
  - apply Qle_shift_div_l; [exact HN|].
    rewrite <- inject_Z_mult.
    apply Qle_trans with (inject_Z (Qfloor x)); [|exact FL].
    apply inject_Z_le_iff. lia.
  - apply Qlt_shift_div_r; [exact HN|].
    rewrite <- inject_Z_mult.
    apply Qlt_le_trans with (inject_Z (Qfloor x + 1)); [exact FU|].
    apply inject_Z_le_iff. lia.
Qed.

Lemma rne_add_even (n : Z) (r : Q) :
  Z.even n = true -> rne (inject_Z n + r) = (n + rne r)%Z.
Proof.
  intros E. unfold rne. rewrite Qfloor_add_Z.
  assert (F : inject_Z n + r - inject_Z (n + Qfloor r) == r - inject_Z (Qfloor r))
    by (rewrite inject_Z_plus; ring).
  rewrite (Qcompare_comp _ _ F _ _ (Qeq_refl (1 # 2))).
  rewrite Z.even_add, E.
  destruct (Qcompare (r - inject_Z (Qfloor r)) (1 # 2));
    [destruct (Z.even (Qfloor r))|..]; cbn [Bool.eqb]; lia.
Qed.

(** [Qrem] by 60, through the quotient and remainder by 3600. *)
Lemma Qfloor_div_60 (x : Q) :
  Qfloor (x / 60)
  = (60 * Qfloor (x / 3600) + Qfloor (Qrem x 3600 / 60))%Z.
Proof.
  rewrite <- Qfloor_add_Z. apply Qfloor_comp.
  unfold Qrem. rewrite inject_Z_mult. change (inject_Z 60) with 60. field.
Qed.

Lemma Qrem_60_eq (x : Q) :
  x == inject_Z (3600 * Qfloor (x / 3600) + 60 * Qfloor (Qrem x 3600 / 60))
       + Qrem x 60.
Proof.
  unfold Qrem at 2. rewrite (Qfloor_div_60 x).
  rewrite !inject_Z_plus, !inject_Z_mult.
  change (inject_Z 3600) with 3600. change (inject_Z 60) with 60. ring.
Qed.

Lemma fields_sum (x : Q) :
  (3600 * Qfloor (x / 3600) + 60 * Qfloor (Qrem x 3600 / 60)
   + rne (Qrem x 60))%Z = rne x.
Proof.
  rewrite (rne_proper _ _ (Qrem_60_eq x)).
  rewrite rne_add_even; [reflexivity|].
  rewrite Z.even_add, !Z.even_mul. reflexivity.
Qed.

End Floors.

Section Micros.
Local Open Scope Q_scope.

Lemma representable_half (k : Z) :
  (Z.abs (2 * k + 1) < 2 ^ 53)%Z -> representable (inject_Z k + (1 # 2)).
Proof.
  intros B. exists (2 * k + 1)%Z, (-1)%Z. split; [exact B|].
  change (2 ^ (-1)) with (1 # 2). rewrite inject_Z_plus, inject_Z_mult.
  change (inject_Z 2) with 2. change (inject_Z 1) with 1. ring.
Qed.

(** The uptime of [us] microseconds, as a float, lies in the same second
    and on the same side of its middle as [us / 10^6] does. *)
Lemma total_seconds_bracket (us : Z) :
  (0 <= us < 4000000000000000)%Z ->
  let x := total_seconds {| total_microseconds := us |} in
  Qfloor x = (us / 1000000)%Z /\
  Qcompare (x - inject_Z (Qfloor x)) (1 # 2)
  = Z.compare (2 * (us mod 1000000)) 1000000.
Proof.
  intros [H0 HB] x.
  set (k := (us / 1000000)%Z). set (f := (us mod 1000000)%Z).
  assert (Eus : us = (1000000 * k + f)%Z) by (apply Z.div_mod; lia).
  assert (Hf : (0 <= f < 1000000)%Z) by (apply Z.mod_pos_bound; lia).
  assert (Hk : (0 <= k < 4000000000)%Z).
  { split; [apply Z.div_pos; lia | apply Z.div_lt_upper_bound; lia]. }
  assert (Eq' : inject_Z us / inject_Z 1000000
                == inject_Z k + inject_Z f * (1 # 1000000)).
  { rewrite Eus, inject_Z_plus, inject_Z_mult.
    change (inject_Z 1000000) with 1000000. field. }
  assert (Ex : x == RN (inject_Z k + inject_Z f * (1 # 1000000))).
  { unfold x, total_seconds, int_truediv. cbn [total_microseconds].
    apply RN_proper, Eq'. }
  assert (Qk0 : 0 <= inject_Z k) by (apply (inject_Z_le_iff 0); lia).
  assert (Qk1 : inject_Z k <= 3999999999) by (apply (inject_Z_le_iff k 3999999999); lia).
  assert (Qf0 : 0 <= inject_Z f) by (apply (inject_Z_le_iff 0); lia).
  assert (Qf1 : inject_Z f <= 999999) by (apply (inject_Z_le_iff f 999999); lia).
  assert (Idk : RN (inject_Z k) == inject_Z k) by (apply RN_id, representable_Z; lia).
  assert (Idk1 : RN (inject_Z k + 1) == inject_Z k + 1).
  { rewrite <- inject_Z_succ. apply RN_id, representable_Z. lia. }
  assert (Idh : RN (inject_Z k + (1 # 2)) == inject_Z k + (1 # 2))
    by (apply RN_id, representable_half; lia).
  remember (inject_Z k) as qk. remember (inject_Z f) as qf.
  set (q := qk + qf * (1 # 1000000)) in *.
  assert (Lo : qk <= x).
  { rewrite Ex, <- Idk. apply RN_mono. unfold q. lra. }
  assert (Up : x < qk + 1).
  { rewrite Ex, <- Idk1. apply RN_strict; unfold q.
    - lra.
    - lra.
    - apply Qlt_shift_div_r; [reflexivity|].
      change (inject_Z (2 ^ 53)) with 9007199254740992. lra. }
  assert (F : Qfloor x = k).
  { apply Qfloor_unique; rewrite ?inject_Z_succ, <- ?Heqqk; assumption. }
  split; [exact F|]. rewrite F, <- Heqqk.
  assert (C2 : (2 * f ?= 1000000)%Z = (f ?= 500000)%Z).
  { destruct (Z.compare_spec f 500000);
      [apply Z.compare_eq_iff | apply Z.compare_lt_iff | apply Z.compare_gt_iff]; lia. }
  rewrite C2.
  destruct (Z.compare_spec f 500000) as [Ef|Lf|Gf].
  - apply (proj1 (Qeq_alt _ _)).
    assert (Eqf : qf == 500000) by (rewrite Heqqf, Ef; reflexivity).
    assert (Eh : q == qk + (1 # 2)) by (unfold q; lra).
    rewrite Ex, (RN_proper _ _ Eh), Idh. ring.
  - apply (proj1 (Qlt_alt _ _)).
    assert (Lqf : qf <= 499999)
      by (rewrite Heqqf; apply (inject_Z_le_iff f 499999); lia).
    assert (S : x < qk + (1 # 2)).
    { rewrite Ex, <- Idh. apply RN_strict; unfold q.
      - lra.
      - lra.
      - apply Qlt_shift_div_r; [reflexivity|].
        change (inject_Z (2 ^ 53)) with 9007199254740992. lra. }
    lra.
  - apply (proj1 (Qgt_alt _ _)).
    assert (Gqf : 500001 <= qf)
      by (rewrite Heqqf; apply (inject_Z_le_iff 500001 f); lia).
    assert (S : qk + (1 # 2) < x).
    { rewrite Ex, <- Idh. apply RN_strict; unfold q.
      - lra.
      - lra.
      - apply Qlt_shift_div_r; [reflexivity|].
        change (inject_Z (2 ^ 53)) with 9007199254740992. lra. }
    lra.
Qed.

Lemma rne_total_seconds (us : Z) :
  (0 <= us < 4000000000000000)%Z ->
  rne (total_seconds {| total_microseconds := us |})
  = round_half_even_div us 1000000.
Proof.
  intros H. destruct (total_seconds_bracket us H) as [F C].
  unfold rne, round_half_even_div. rewrite C, F. reflexivity.
Qed.

Lemma human_micros (us : Z) :
  (0 <= us < 4000000000000000)%Z ->
  human (total_seconds {| total_microseconds := us |}) = human_of_micros us.
Proof.
  intros H. destruct (total_seconds_bracket us H) as [F _].
  pose proof (rne_total_seconds us H) as R.
  set (x := total_seconds {| total_microseconds := us |}) in *.
  set (k := (us / 1000000)%Z) in *.
  assert (Hk : (0 <= k < 4000000000)%Z).
  { split; [apply Z.div_pos; lia | apply Z.div_lt_upper_bound; lia]. }
  assert (Hx : 0 <= x) by (apply total_seconds_nonneg; cbn; lia).
  assert (Rx : representable x) by apply total_seconds_representable.
  assert (FH : Qfloor (x / 3600) = (k / 3600)%Z).
  { change 3600 with (inject_Z 3600). rewrite Qfloor_div_Z by lia. rewrite F. reflexivity. }
  assert (F60 : Qfloor (x / 60) = (k / 60)%Z).
  { change 60 with (inject_Z 60). rewrite Qfloor_div_Z by lia. rewrite F. reflexivity. }
  assert (FM : Qfloor (Qrem x 3600 / 60) = (k mod 3600 / 60)%Z).
  { change 60 with (inject_Z 60). rewrite Qfloor_div_Z by lia. f_equal.
    unfold Qrem. rewrite FH.
    assert (E : x - 3600 * inject_Z (k / 3600)
                == inject_Z (- (3600 * (k / 3600))) + x).
    { rewrite inject_Z_opp, inject_Z_mult. change (inject_Z 3600) with 3600. ring. }
    rewrite (Qfloor_comp _ _ E), Qfloor_add_Z, F, Z.mod_eq by lia. lia. }
  assert (FS : rne (Qrem x 60)
               = (k mod 60 + (round_half_even_div us 1000000 - k))%Z).
  { unfold Qrem. rewrite F60.
    assert (E : x - 60 * inject_Z (k / 60) == inject_Z (- (60 * (k / 60))) + x).
    { rewrite inject_Z_opp, inject_Z_mult. change (inject_Z 60) with 60. ring. }
    rewrite (rne_proper _ _ E), rne_add_even, R, Z.mod_eq by
      first [lia | rewrite Z.even_opp, Z.even_mul; reflexivity].
    lia. }
  destruct (hours_field_eq x Hx) as (EH & _ & XH).
  pose proof (Z.div_pos k 3600 ltac:(lia) ltac:(lia)) as P1.
  pose proof (Z.div_le_upper_bound k 3600 4000000000 ltac:(lia) ltac:(lia)) as P2.
  unfold human, human_of_micros. fold k.
  rewrite EH, XH, FH by (rewrite FH; lia).
  rewrite (minutes_field_eq x Hx Rx), FM.
  rewrite (seconds_field_eq x Hx Rx), FS.
  reflexivity.
Qed.

End Micros.

Section MoreRounding.
Local Open Scope Q_scope.



Lemma hours_field_neg (x : Q) :
  x < 0 ->
  exists H : Z, (H <= -1)%Z /\ hours_field x = pretty H.
Proof.
  intros Hx.
  assert (F : (Qfloor (x / 3600) <= -1)%Z).
  { pose proof (Qfloor_le (x / 3600)) as FL.
    assert (D : x / 3600 < 0) by (apply Qlt_shift_div_r; [reflexivity | lra]).
    assert (G : (Qfloor (x / 3600) < 0)%Z)
      by (apply inject_Z_lt_iff; change (inject_Z 0) with 0; lra).
    lia. }
  assert (Y : float_floordiv x 3600 <= -1).
  { unfold float_floordiv.
    assert (I : RN (inject_Z (-1)) == inject_Z (-1))
      by (apply RN_id, representable_Z; reflexivity).
    change (-1) with (inject_Z (-1)). rewrite <- I.
    apply RN_mono, inject_Z_le_iff, F. }
  assert (R : (rne (float_floordiv x 3600) <= -1)%Z).
  { rewrite <- (rne_Z (-1)). apply rne_mono. exact Y. }
  exists (rne (float_floordiv x 3600)). split; [exact R|].
  unfold hours_field, format_0f.
  destruct (Z.eqb_spec (rne (float_floordiv x 3600)) 0) as [E|_]; [lia|].
  rewrite andb_false_r. reflexivity.
Qed.

Lemma hours_floor_bound (d : timedelta) :
  (0 <= total_microseconds d < 10 ^ 18)%Z ->
  (Qfloor (total_seconds d / 3600) < 2 ^ 53)%Z.
Proof.
  intros [H0 HB].
  assert (I : RN (inject_Z (10 ^ 12)) == inject_Z (10 ^ 12))
    by (apply RN_id, representable_Z; reflexivity).
  assert (X : total_seconds d <= inject_Z (10 ^ 12)).
  { rewrite <- I. unfold total_seconds, int_truediv. apply RN_mono.
    apply Qle_shift_div_r; [reflexivity|].
    rewrite <- inject_Z_mult. apply inject_Z_le_iff. lia. }
  pose proof (Qfloor_le (total_seconds d / 3600)) as FL.
  assert (D : total_seconds d / 3600 <= inject_Z (10 ^ 12)).
  { apply Qle_shift_div_r; [reflexivity|].
    change (inject_Z (10 ^ 12)) with 1000000000000 in *. lra. }
  assert (G : (Qfloor (total_seconds d / 3600) <= 10 ^ 12)%Z).
  { apply inject_Z_le_iff. lra. }
  lia.
Qed.

End MoreRounding.

Lemma pretty_negative (H : Z) : H < 0 -> exists s : string, pretty H = "-" ++ s.
Proof.
  intros N. destruct H as [|q|q]; [lia | lia |].
  exists (pretty (N.pos q)). reflexivity.
Qed.

(** ** Resolution of the uptime *)

(** X1: two requests to [/health] or [/api/metrics] whose clock readings
    differ, the earlier not before the start time and the later less than
    2^52 microseconds (142 years) after it, report strictly increasing
    uptimes: the float keeps the microsecond apart. *)
Theorem uptime_strictly_increasing :
  forall (p : Process) (path1 path2 : string) (h1 h2 : Host) (u1 u2 : Q),
    micros (start_time p) <= micros (now h1) ->
    micros (now h1) < micros (now h2) ->
    micros (now h2) - micros (start_time p) < 2 ^ 52 ->
    reported_uptime (fst (app path1 h1 p)) = Some u1 ->
    reported_uptime (fst (app path2 h2 p)) = Some u2 ->
    (u1 < u2)%Q.
Proof.
  intros p path1 path2 h1 h2 u1 u2 H0 H12 HB R1 R2.
  rewrite (reported_uptime_app _ _ _ _ R1), (reported_uptime_app _ _ _ _ R2).
  apply total_seconds_strict; cbn [datetime_sub total_microseconds]; lia.
Qed.

Lemma uptime_strictly_increasing_witness :
  micros (start_time example_process) <= micros (now (example_host 1000000)) /\
  micros (now (example_host 1000000)) < micros (now (example_host 1000001)) /\
  micros (now (example_host 1000001)) - micros (start_time example_process)
    < 2 ^ 52 /\
  reported_uptime (fst (app "/health" (example_host 1000000) example_process))
    = Some (total_seconds {| total_microseconds := 1000000 |}) /\
  reported_uptime
    (fst (app "/api/metrics" (example_host 1000001) example_process))
    = Some (total_seconds {| total_microseconds := 1000001 |}) /\
  (total_seconds {| total_microseconds := 1000000 |}
   < total_seconds {| total_microseconds := 1000001 |})%Q.
Proof.
  assert (A : micros (start_time example_process)
              <= micros (now (example_host 1000000))) by (cbn; lia).
  assert (B : micros (now (example_host 1000000))
              < micros (now (example_host 1000001))) by (cbn; lia).
  assert (C : micros (now (example_host 1000001))
              - micros (start_time example_process) < 2 ^ 52) by (cbn; lia).
  assert (D : reported_uptime
                (fst (app "/health" (example_host 1000000) example_process))
              = Some (total_seconds {| total_microseconds := 1000000 |}))
    by reflexivity.
  assert (E : reported_uptime
                (fst (app "/api/metrics" (example_host 1000001) example_process))
              = Some (total_seconds {| total_microseconds := 1000001 |}))
    by reflexivity.
  repeat (split; [assumption|]).
  exact (uptime_strictly_increasing example_process "/health" "/api/metrics"
           (example_host 1000000) (example_host 1000001) _ _ A B C D E).
Defined.

(** ** The human-readable uptime, in integers *)

(** X2: for an uptime of [us] microseconds, below 4*10^15 (126 years),
    [/api/metrics] prints the whole hours, the whole minutes, and the
    seconds plus the fraction rounded to nearest, ties to even: the float
    division by 10^6 and the float remainders change none of the three
    fields. *)
Theorem metrics_human_of_micros :
  forall (h : Host) (p : Process),
    0 <= micros (now h) - micros (start_time p) < 4000000000000000 ->
    exists r : MetricsResponse.t,
      fst (app "/api/metrics" h p)
        = inl {| http_status := 200; body := MetricsBody r |} /\
      MetricsResponse.uptime_human r
        = human_of_micros (micros (now h) - micros (start_time p)).
Proof.
  intros h p H. eexists. split; [apply metrics_answer|].
  cbn [MetricsResponse.uptime_human]. apply (human_micros _ H).
Qed.

Lemma metrics_human_of_micros_witness :
  0 <= micros (now (example_host 3598500000))
       - micros (start_time example_process) < 4000000000000000 /\
  exists r : MetricsResponse.t,
    fst (app "/api/metrics" (example_host 3598500000) example_process)
      = inl {| http_status := 200; body := MetricsBody r |} /\
    MetricsResponse.uptime_human r
      = human_of_micros
          (micros (now (example_host 3598500000))
           - micros (start_time example_process)).
Proof.
  assert (H : 0 <= micros (now (example_host 3598500000))
                   - micros (start_time example_process) < 4000000000000000)
    by (cbn; lia).
  split; [exact H|].
  exact (metrics_human_of_micros (example_host 3598500000) example_process H).
Defined.

(** X3: when the microsecond part of the uptime is below half a second,
    what [/api/metrics] prints is the decomposition by integer division
    of the whole seconds. *)
Theorem metrics_human_is_integer_division :
  forall (h : Host) (p : Process),
    0 <= micros (now h) - micros (start_time p) < 4000000000000000 ->
    (micros (now h) - micros (start_time p)) mod 1000000 < 500000 ->
    exists r : MetricsResponse.t,
      fst (app "/api/metrics" h p)
        = inl {| http_status := 200; body := MetricsBody r |} /\
      Qfloor (MetricsResponse.uptime_seconds r)
        = (micros (now h) - micros (start_time p)) / 1000000 /\
      MetricsResponse.uptime_human r
        = human_by_integer_division (MetricsResponse.uptime_seconds r).
Proof.
  intros h p H F. eexists. split; [apply metrics_answer|].
  cbn [MetricsResponse.uptime_human MetricsResponse.uptime_seconds].
  set (us := micros (now h) - micros (start_time p)) in *.
  change (datetime_sub (now h) (start_time p))
    with {| total_microseconds := us |}.
  destruct (total_seconds_bracket us H) as [Fl _].
  split; [exact Fl|].
  rewrite (human_micros us H).
  unfold human_of_micros, human_by_integer_division. rewrite Fl.
  assert (R : round_half_even_div us 1000000 = us / 1000000).
  { unfold round_half_even_div.
    destruct (Z.compare_spec (2 * (us mod 1000000)) 1000000); [lia| |lia].
    reflexivity. }
  rewrite R. replace (us / 1000000 mod 60 + (us / 1000000 - us / 1000000))
    with (us / 1000000 mod 60) by lia.
  reflexivity.
Qed.

Lemma metrics_human_is_integer_division_witness :
  0 <= micros (now (example_host 3725250000))
       - micros (start_time example_process) < 4000000000000000 /\
  (micros (now (example_host 3725250000))
   - micros (start_time example_process)) mod 1000000 < 500000 /\
  exists r : MetricsResponse.t,
    fst (app "/api/metrics" (example_host 3725250000) example_process)
      = inl {| http_status := 200; body := MetricsBody r |} /\
    Qfloor (MetricsResponse.uptime_seconds r)
      = (micros (now (example_host 3725250000))
         - micros (start_time example_process)) / 1000000 /\
    MetricsResponse.uptime_human r
      = human_by_integer_division (MetricsResponse.uptime_seconds r).
Proof.
  assert (H : 0 <= micros (now (example_host 3725250000))
                   - micros (start_time example_process) < 4000000000000000)
    by (cbn; lia).
  assert (F : (micros (now (example_host 3725250000))
               - micros (start_time example_process)) mod 1000000 < 500000)
    by (vm_compute; reflexivity).
  split; [exact H|]. split; [exact F|].
  exact (metrics_human_is_integer_division (example_host 3725250000)
           example_process H F).
Defined.

(** X4: the three fields of the human-readable uptime always add up to
    the uptime rounded to the nearest whole second, ties to even, also
    when the seconds field is 60 (uptimes below 10^18 microseconds, which
    covers every difference of two [datetime]s). *)
Theorem metrics_human_fields_sum :
  forall (h : Host) (p : Process),
    0 <= micros (now h) - micros (start_time p) < 10 ^ 18 ->
    exists (r : MetricsResponse.t) (H M S : Z),
      fst (app "/api/metrics" h p)
        = inl {| http_status := 200; body := MetricsBody r |} /\
      MetricsResponse.uptime_human r
        = pretty H ++ "h " ++ pretty M ++ "m " ++ pretty S ++ "s" /\
      0 <= H /\ 0 <= M <= 59 /\ 0 <= S <= 60 /\
      3600 * H + 60 * M + S = rne (MetricsResponse.uptime_seconds r).
Proof.
  intros h p Hus.
  set (x := total_seconds (datetime_sub (now h) (start_time p))).
  assert (Hx : (0 <= x)%Q) by (apply total_seconds_nonneg; cbn; lia).
  assert (R : representable x) by apply total_seconds_representable.
  assert (B : Qfloor (x / 3600) < 2 ^ 53) by (apply hours_floor_bound; cbn; lia).
  destruct (hours_field_eq x Hx) as (EH & _ & XH).
  destruct (Qrem_bounds x 3600 eq_refl) as [LM UM].
  destruct (Qrem_bounds x 60 eq_refl) as [LS US].
  destruct (seconds_bounds _ LS US) as [BS _].
  eexists. exists (Qfloor (x / 3600)), (Qfloor (Qrem x 3600 / 60)), (rne (Qrem x 60)).
  split; [apply metrics_answer|].
  cbn [MetricsResponse.uptime_human MetricsResponse.uptime_seconds]. fold x.
  split.
  - unfold human.
    rewrite EH, (XH B), (minutes_field_eq x Hx R), (seconds_field_eq x Hx R).
    reflexivity.
  - split; [apply hours_floor_nonneg, Hx|].
    split; [apply minutes_floor_bounds; assumption|].
    split; [exact BS|]. apply fields_sum.
Qed.

Lemma metrics_human_fields_sum_witness :
  0 <= micros (now (example_host 3599500000))
       - micros (start_time example_process) < 10 ^ 18 /\
  exists (r : MetricsResponse.t) (H M S : Z),
    fst (app "/api/metrics" (example_host 3599500000) example_process)
      = inl {| http_status := 200; body := MetricsBody r |} /\
    MetricsResponse.uptime_human r
      = pretty H ++ "h " ++ pretty M ++ "m " ++ pretty S ++ "s" /\
    0 <= H /\ 0 <= M <= 59 /\ 0 <= S <= 60 /\
    3600 * H + 60 * M + S = rne (MetricsResponse.uptime_seconds r).
Proof.
  assert (H : 0 <= micros (now (example_host 3599500000))
                   - micros (start_time example_process) < 10 ^ 18)
    by (cbn; lia).
  split; [exact H|].
  exact (metrics_human_fields_sum (example_host 3599500000) example_process H).
Defined.

(** ** A clock behind the start time *)

(** X5: when the clock reads earlier than [start_time], [/health]
    reports a negative uptime and [/api/metrics] a negative uptime and an
    [uptime_human] that starts with a minus sign: nothing clamps the
    difference at zero. *)
Theorem uptime_negative_when_clock_behind :
  forall (h : Host) (p : Process),
    micros (now h) < micros (start_time p) ->
    (exists r : HealthResponse.t,
       fst (app "/health" h p)
         = inl {| http_status := 200; body := HealthBody r |} /\
       (HealthResponse.uptime r < 0)%Q) /\
    (exists (r : MetricsResponse.t) (rest : string),
       fst (app "/api/metrics" h p)
         = inl {| http_status := 200; body := MetricsBody r |} /\
       (MetricsResponse.uptime_seconds r < 0)%Q /\
       MetricsResponse.uptime_human r = "-" ++ rest).
Proof.
  intros h p Hclock.
  assert (N : (total_seconds (datetime_sub (now h) (start_time p)) < 0)%Q)
    by (apply total_seconds_neg; cbn; lia).
  split.
  - eexists. split; [apply health_answer|]. exact N.
  - destruct (hours_field_neg _ N) as (H & HH & EH).
    destruct (pretty_negative H ltac:(lia)) as (s & Es).
    eexists. eexists. split; [apply metrics_answer|].
    split; [exact N|].
    cbn [MetricsResponse.uptime_human]. unfold human. rewrite EH, Es.
    reflexivity.
Qed.

Lemma uptime_negative_when_clock_behind_witness :
  micros (now (example_host (-1))) < micros (start_time example_process) /\
  (exists r : HealthResponse.t,
     fst (app "/health" (example_host (-1)) example_process)
       = inl {| http_status := 200; body := HealthBody r |} /\
     (HealthResponse.uptime r < 0)%Q) /\
  (exists (r : MetricsResponse.t) (rest : string),
     fst (app "/api/metrics" (example_host (-1)) example_process)
       = inl {| http_status := 200; body := MetricsBody r |} /\
     (MetricsResponse.uptime_seconds r < 0)%Q /\
     MetricsResponse.uptime_human r = "-" ++ rest).
Proof.
  assert (H : micros (now (example_host (-1)))
              < micros (start_time example_process)) by (cbn; lia).
  split; [exact H|].
  exact (uptime_negative_when_clock_behind (example_host (-1)) example_process H).
Defined.

(** ** Routing *)

(** X7: every path that [GET /] lists under [endpoints], and every path
    that the 404 handler lists under [available_endpoints] or gives as
    [documentation], is a declared route, answered with status 200. *)
Theorem advertised_paths_are_served :
  (forall (h : Host) (p : Process),
   exists r : AppInfoResponse.t,
     fst (app "/" h p) = inl {| http_status := 200; body := AppInfoBody r |} /\
     Forall (fun entry => served (snd entry)) (AppInfoResponse.endpoints r)) /\
  (forall (request : string) (exc : HTTPException) (p : Process),
   exists (e : HTTPException) (error : string) (paths : list string)
          (documentation : string),
     not_found_handler request exc p = (inr e, p) /\
     detail e = DetailNotFound error paths documentation /\
     Forall served (documentation :: paths)).
Proof.
  split.
  - intros h p. eexists. split; [reflexivity|].
    repeat constructor; intros h' p'; eexists; split; reflexivity.
  - intros request exc p. eexists. eexists. eexists. eexists.
    split; [reflexivity|]. split; [reflexivity|].
    repeat constructor; intros h' p'; eexists; split; reflexivity.
Qed.

(** ** Sequences of requests *)

(** X8: in any sequence of requests, each one is answered as it would be
    were it the only one: no request leaves anything behind for the
    next. *)
Theorem requests_are_independent :
  forall (reqs : list (string * Host)) (p : Process) (i : nat)
         (path : string) (h : Host),
    reqs !! i = Some (path, h) ->
    fst (serve reqs p) !! i = Some (fst (app path h p)) /\
    fst (serve [(path, h)] p) = [fst (app path h p)].
Proof.
  intros reqs p i path h L. rewrite !serve_eq. cbn [fst snd map].
  split; [|reflexivity].
  rewrite list_lookup_fmap, L. reflexivity.
Qed.

Lemma requests_are_independent_witness :
  [ ("/health", example_host 1000000);
    ("/nonexistent", example_host 1200000);
    ("/api/metrics", example_host 2500000) ] !! 2%nat
  = Some ("/api/metrics", example_host 2500000) /\
  fst (serve
         [ ("/health", example_host 1000000);
           ("/nonexistent", example_host 1200000);
           ("/api/metrics", example_host 2500000) ]
         example_process) !! 2%nat
  = Some (fst (app "/api/metrics" (example_host 2500000) example_process)) /\
  fst (serve [("/api/metrics", example_host 2500000)] example_process)
  = [fst (app "/api/metrics" (example_host 2500000) example_process)].
Proof.
  assert (L : [ ("/health", example_host 1000000);
                ("/nonexistent", example_host 1200000);
                ("/api/metrics", example_host 2500000) ] !! 2%nat
              = Some ("/api/metrics", example_host 2500000)) by reflexivity.
  split; [exact L|].
  exact (requests_are_independent _ example_process 2%nat "/api/metrics"
           (example_host 2500000) L).
Defined.

(** X9: any number of [/health] requests, served by one process, are all
    answered with status 200 and [status] "healthy", one answer per
    request, and leave the process as it was (the test sends ten). *)
Theorem health_requests_all_ok :
  forall (hosts : list Host) (p : Process),
    let answers := fst (serve (map (fun h => ("/health", h)) hosts) p) in
    length answers = length hosts /\
    Forall
      (fun a =>
         exists r : HealthResponse.t,
           a = inl {| http_status := 200; body := HealthBody r |} /\
           HealthResponse.status r = "healthy")
      answers /\
    snd (serve (map (fun h => ("/health", h)) hosts) p) = p.
Proof.
  intros hosts p answers. unfold answers. rewrite serve_eq. cbn [fst snd].
  split; [rewrite !length_map; reflexivity|]. split; [|reflexivity].
  induction hosts as [|h rest IH]; constructor; [|exact IH].
  cbn [fst snd]. eexists. split; [apply health_answer|]. reflexivity.
Qed.

(** ** Accuracy of the uptime *)

(** X10: the uptime [/health] reports differs from the elapsed
    microseconds divided by 10^6 by at most that quotient times 2^-53,
    and is that quotient exactly when the elapsed time is a whole number
    of seconds below 2^53. *)
Theorem health_uptime_accuracy :
  forall (h : Host) (p : Process),
    0 <= micros (now h) - micros (start_time p) ->
    exists r : HealthResponse.t,
      fst (app "/health" h p)
        = inl {| http_status := 200; body := HealthBody r |} /\
      let elapsed :=
        (inject_Z (micros (now h) - micros (start_time p)) / 1000000)%Q in
      (HealthResponse.uptime r - elapsed <= elapsed / inject_Z (2 ^ 53))%Q /\
      (elapsed - HealthResponse.uptime r <= elapsed / inject_Z (2 ^ 53))%Q /\
      (forall k : Z,
         micros (now h) - micros (start_time p) = 1000000 * k ->
         k < 2 ^ 53 ->
         (HealthResponse.uptime r == inject_Z k)%Q).
Proof.
  intros h p H0. eexists. split; [apply health_answer|].
  cbn [HealthResponse.uptime]. cbv zeta.
  unfold total_seconds, int_truediv. cbn [datetime_sub total_microseconds].
  set (us := micros (now h) - micros (start_time p)) in *.
  change (inject_Z 1000000) with 1000000%Q.
  assert (Q0 : (0 <= inject_Z us)%Q) by (apply (inject_Z_le_iff 0); exact H0).
  assert (E0 : (0 <= inject_Z us / 1000000)%Q)
    by (apply Qle_shift_div_l; [reflexivity | lra]).
  split; [|split].
  - destruct (Qlt_le_dec 0 (inject_Z us / 1000000)) as [P|Z].
    + apply RN_error_pos, P.
    + assert (Ez : (inject_Z us / 1000000 == 0)%Q) by lra.
      rewrite (RN_0 _ Ez), Ez. discriminate.
  - destruct (Qlt_le_dec 0 (inject_Z us / 1000000)) as [P|Z].
    + apply RN_error_pos, P.
    + assert (Ez : (inject_Z us / 1000000 == 0)%Q) by lra.
      rewrite (RN_0 _ Ez), Ez. discriminate.
  - intros k Ek Bk.
    assert (Eq : (inject_Z us / 1000000 == inject_Z k)%Q).
    { rewrite Ek, inject_Z_mult. change (inject_Z 1000000) with 1000000%Q.
      field. }
    rewrite (RN_proper _ _ Eq). apply RN_id, representable_Z. lia.
Qed.

Lemma health_uptime_accuracy_witness :
  0 <= micros (now (example_host 59700000))
       - micros (start_time example_process) /\
  exists r : HealthResponse.t,
    fst (app "/health" (example_host 59700000) example_process)
      = inl {| http_status := 200; body := HealthBody r |} /\
    let elapsed :=
      (inject_Z (micros (now (example_host 59700000))
                 - micros (start_time example_process)) / 1000000)%Q in
    (HealthResponse.uptime r - elapsed <= elapsed / inject_Z (2 ^ 53))%Q /\
    (elapsed - HealthResponse.uptime r <= elapsed / inject_Z (2 ^ 53))%Q /\
    (forall k : Z,
       micros (now (example_host 59700000))
       - micros (start_time example_process) = 1000000 * k ->
       k < 2 ^ 53 ->
       (HealthResponse.uptime r == inject_Z k)%Q).
Proof.
  assert (H : 0 <= micros (now (example_host 59700000))
                   - micros (start_time example_process)) by (cbn; lia).
  split; [exact H|].
  exact (health_uptime_accuracy (example_host 59700000) example_process H).
Defined.

(** ** The environment *)


